(** * annotate_plate.py: annotating OMERO plate wells from a csv table

    A shallow embedding of [src/annotate_plate.py].  The script talks to an
    OMERO server through the [ezomero] client library and the OMERO query
    service, and reads its table with [pandas]; those are the environment of
    the script.  The environment is modelled by a store ([Server]) holding
    plates, wells and map annotations, and every call of the script into it
    is recorded in a trace ([Event]), next to the warnings it logs and the
    lines it prints, so that statements about what the script asks the
    server, and in which order, can be made next to statements about the
    store.

    What is taken from the environment:
    - [ezomero.connect] gives a connection, and [pd.read_csv] the table
      ([DataFrame]) that [main] works on;
    - the plate query returns the identifiers of the plates whose name is
      the given one ([plate_ids]);
    - [ezomero.get_well_id] returns the well of the plate at a position, or
      [None] ([well_at]);
    - [ezomero.get_map_annotation_ids] returns the identifiers of the map
      annotations linked to the well under the namespace, in the order the
      store holds them ([map_annotation_ids]);
    - [ezomero.post_map_annotation] adds one annotation under an identifier
      not in use and returns the identifier; [ezomero.put_map_annotation]
      replaces the key-value pairs of the annotation with the identifier
      and keeps its namespace ([ns=None]) and its link.  The store keeps the
      dict it is handed. *)

From Stdlib Require Import ZArith List String Ascii Bool Lia PrimFloat.
From Stdlib Require Import DecimalString.
From Stdlib Require DecimalPos DecimalZ.
Import ListNotations.
Local Open Scope string_scope.
Local Open Scope list_scope.
Local Open Scope Z_scope.

(** ** Python values and dicts *)

Module Py.

(** The cells [pd.read_csv(csv, dtype=DTYPES)] produces: [str], [int] and
    [float] objects. *)
Inductive value : Type :=
| VStr (s : string)
| VInt (z : Z)
| VFloat (f : float).

(** A Python [dict] keeps its items in insertion order and has every key at
    most once. *)
Definition dict : Type := list (string * value).

Definition key_is (k : string) (kv : string * value) : bool :=
  String.eqb (fst kv) k.

Fixpoint dict_get (d : dict) (k : string) : option value :=
  match d with
  | [] => None
  | (k', v) :: rest => if String.eqb k' k then Some v else dict_get rest k
  end.

(** [d[k] = v]: an existing key keeps its place, a new one goes last. *)
Fixpoint dict_set (d : dict) (k : string) (v : value) : dict :=
  match d with
  | [] => [(k, v)]
  | (k', v') :: rest =>
      if String.eqb k' k then (k', v) :: rest else (k', v') :: dict_set rest k v
  end.

(** [dict(items)]. *)
Definition dict_of_items (items : list (string * value)) : dict :=
  fold_left (fun d kv => dict_set d (fst kv) (snd kv)) items [].

(** The dict left by [d.pop(k)]. *)
Definition dict_remove (d : dict) (k : string) : dict :=
  filter (fun kv => negb (key_is k kv)) d.

(** [str(n)] for an [int]. *)
Definition str_int (z : Z) : string := NilZero.string_of_int (Z.to_int z).

(** The exceptions that occur in the script and in the calls it makes. *)
Inductive Exn : Type :=
| ValueError (msg : string)
| KeyError (key : string)
| TypeError (msg : string).

End Py.
Import Py.

(** ** The OMERO server *)

Record Plate : Type := mkPlate { pl_id : Z; pl_name : string }.

Record Well : Type :=
  mkWell { w_id : Z; w_plate : Z; w_row : Z; w_column : Z }.

(** A map annotation: its identifier, the well it is linked to, its
    namespace and its key-value pairs. *)
Record MapAnnotation : Type :=
  mkMapAnn { ma_id : Z; ma_well : Z; ma_ns : string; ma_kv : dict }.

Record Server : Type :=
  mkServer { plates : list Plate; wells : list Well;
             annotations : list MapAnnotation }.

(** The server with another list of annotations. *)
Definition with_annotations (s : Server) (l : list MapAnnotation) : Server :=
  mkServer (plates s) (wells s) l.

(** What the script asks of its environment and what it writes out. *)
Inductive Event : Type :=
| EConnect (group host : string) (port : Z) (secure : bool)
| EPlateQuery (pname : string)
| EGetWellId (plate row column : Z)
| EGetMapAnnotationIds (well : Z) (ns : string)
| EPutMapAnnotation (ann : Z) (kv : dict)
| EPostMapAnnotation (well : Z) (kv : dict) (ns : string)
| EWarning (msg : string)
| EPrint (msg : string)
| EClose.

Record World : Type := mkWorld { server : Server; trace : list Event }.

(** ** State and exceptions *)

Inductive Outcome (A : Type) : Type :=
| Returned (a : A) (w : World)
| Raised (e : Exn) (w : World).
Arguments Returned {A} a w.
Arguments Raised {A} e w.

Definition M (A : Type) : Type := World -> Outcome A.

Definition ret {A} (a : A) : M A := fun w => Returned a w.

Definition bind {A B} (m : M A) (k : A -> M B) : M B :=
  fun w => match m w with
           | Returned a w' => k a w'
           | Raised e w' => Raised e w'
           end.

Definition raise {A} (e : Exn) : M A := fun w => Raised e w.

Definition emit (e : Event) : M unit :=
  fun w => Returned tt (mkWorld (server w) (trace w ++ [e])).

Definition get_server : M Server := fun w => Returned (server w) w.

Definition set_server (s : Server) : M unit :=
  fun w => Returned tt (mkWorld s (trace w)).

Declare Scope py_scope.
Delimit Scope py_scope with py.
Notation "x <- m ;; k" := (bind m (fun x => k))
  (at level 61, m at next level, right associativity) : py_scope.
Notation "m ;; k" := (bind m (fun _ => k))
  (at level 61, right associativity) : py_scope.
Local Open Scope py_scope.

(** A [for] loop over a list. *)
Fixpoint for_each {A} (body : A -> M unit) (l : list A) : M unit :=
  match l with
  | [] => ret tt
  | x :: rest => body x ;; for_each body rest
  end.

(** The world an outcome ends in. *)
Definition world_of {A} (o : Outcome A) : World :=
  match o with Returned _ w => w | Raised _ w => w end.

Definition returned {A} (o : Outcome A) : bool :=
  match o with Returned _ _ => true | Raised _ _ => false end.

(** ** The calls into the server *)

Definition on_well (well : Z) (ns : string) (a : MapAnnotation) : bool :=
  (ma_well a =? well) && String.eqb (ma_ns a) ns.

(** The HQL projection
    [SELECT pl.id FROM Plate pl WHERE pl.name=:pname]. *)
Definition plate_ids (s : Server) (pname : string) : list Z :=
  map pl_id (filter (fun p => String.eqb (pl_name p) pname) (plates s)).

Definition projection_plate (pname : string) : M (list Z) :=
  emit (EPlateQuery pname) ;;
  s <- get_server ;;
  ret (plate_ids s pname).

(** [ezomero.get_well_id]: the well of the plate at the position, or
    [None]. *)
Definition well_at (s : Server) (plate row column : Z) : option Z :=
  match filter (fun w => (w_plate w =? plate) && (w_row w =? row)
                         && (w_column w =? column)) (wells s) with
  | [] => None
  | w :: _ => Some (w_id w)
  end.

Definition get_well_id (plate row column : Z) : M (option Z) :=
  emit (EGetWellId plate row column) ;;
  s <- get_server ;;
  ret (well_at s plate row column).

(** [ezomero.get_map_annotation_ids(conn, "Well", well, ns=ns)]. *)
Definition map_annotation_ids (s : Server) (well : Z) (ns : string) : list Z :=
  map ma_id (filter (on_well well ns) (annotations s)).

Definition get_map_annotation_ids (well : Z) (ns : string) : M (list Z) :=
  emit (EGetMapAnnotationIds well ns) ;;
  s <- get_server ;;
  ret (map_annotation_ids s well ns).

Definition set_kv (kv : dict) (a : MapAnnotation) : MapAnnotation :=
  mkMapAnn (ma_id a) (ma_well a) (ma_ns a) kv.

Definition update_kv (ann : Z) (kv : dict) (a : MapAnnotation) : MapAnnotation :=
  if ma_id a =? ann then set_kv kv a else a.

(** [ezomero.put_map_annotation(conn, ann, kv_dict=kv)]: the annotation keeps
    its namespace and its link, its key-value pairs are replaced. *)
Definition put_map_annotation (ann : Z) (kv : dict) : M unit :=
  emit (EPutMapAnnotation ann kv) ;;
  s <- get_server ;;
  if existsb (fun a => ma_id a =? ann) (annotations s)
  then set_server (mkServer (plates s) (wells s)
                            (map (update_kv ann kv) (annotations s)))
  else raise (ValueError
    "MapAnnotation is non-existent or you do not have permissions to change it.").

(** The identifier the server gives to the next annotation: one it has not
    used. *)
Definition fresh_id (s : Server) : Z :=
  1 + fold_right Z.max 0 (map ma_id (annotations s)).

(** [ezomero.post_map_annotation(conn, "Well", well, kv_dict=kv, ns=ns)]. *)
Definition post_map_annotation (well : Z) (kv : dict) (ns : string) : M Z :=
  emit (EPostMapAnnotation well kv ns) ;;
  s <- get_server ;;
  let new := fresh_id s in
  set_server (mkServer (plates s) (wells s)
                       (annotations s ++ [mkMapAnn new well ns kv])) ;;
  ret new.

(** ** The script *)

Definition OMERO_SERVER : string := "bhomero01lp".
Definition OMERO_GROUP : string := "invitro_arsenic".
Definition NAMESPACE : string :=
  "jax.org/omeroutils/invitro_arsenic/plate_metadata/v0".

Inductive dtype : Type := Dstr | Dint | Dfloat.

Definition DTYPES : list (string * dtype) :=
  [("plate_name", Dstr); ("row", Dint); ("column", Dint);
   ("individual", Dstr); ("concentration", Dfloat); ("compound", Dstr)].

Definition keys {V} (d : list (string * V)) : list string := map fst d.

(** The table [pd.read_csv] returns: the header and the data rows. *)
Record DataFrame : Type :=
  mkDataFrame { columns : list string; rows : list (list value) }.

(** [dict(record)] for the Series [iterrows] yields for a data row. *)
Definition record_of (df : DataFrame) (row : list value) : dict :=
  dict_of_items (combine (columns df) row).

(** [d.pop(k)]: the value and the dict without the key; [KeyError] when the
    key is absent. *)
Definition dict_pop (d : dict) (k : string) : M (value * dict) :=
  match dict_get d k with
  | Some v => ret (v, dict_remove d k)
  | None => raise (KeyError k)
  end.

(** The text of a cell used as a plate name.  The script hands the cell as
    it is to [rstring] in [get_plate_id] and to the f-strings of its errors,
    and both take the [str] of what is not a [str]: a string is taken as it
    is; an empty cell, which [read_csv] gives as the float nan whatever
    [dtype] says, is taken as ["nan"]; an integer as its decimal numeral.
    Python's [str] of the other floats is not modelled: [dtype=DTYPES] lets
    no such cell into [plate_name]. *)
Definition plate_name_of (v : value) : option string :=
  match v with
  | VStr s => Some s
  | VInt z => Some (str_int z)
  | VFloat f => if PrimFloat.is_nan f then Some "nan" else None
  end.

(** The plate name of a row, and [cell - 1] as an index.  [dtype=DTYPES]
    makes [read_csv] give integers in [row] and [column] (it fails on a cell
    it cannot read as an integer); the model stops with a [TypeError] on a
    cell it has no text or no index for, and no statement below is about
    what the message of that error is.  The integers are Python's: [z - 1]
    does not wrap. *)
Definition as_str (v : value) : M string :=
  match plate_name_of v with
  | Some s => ret s
  | None => raise (TypeError "no text for the plate name cell")
  end.

Definition minus_one (v : value) : M Z :=
  match v with
  | VInt z => ret (z - 1)
  | _ => raise (TypeError "index is not an int")
  end.

Definition get_plate_id (plate_name : string) : M Z :=
  results <- projection_plate plate_name ;;
  if (List.length results =? 0)%nat then
    raise (ValueError ("No plate found with name " ++ plate_name)%string)
  else if (1 <? List.length results)%nat then
    raise (ValueError ("Multiple plates found with name " ++ plate_name)%string)
  else ret (hd 0 results).

(** The body of the loop over the rows of the table, in the three steps the
    script marks with its comments. *)

(** [# Parse the row]: the plate name, the two indices, and the record that
    is left. *)
Definition parse_record (record : dict) : M (string * Z * Z * dict) :=
  p <- dict_pop record "plate_name" ;;
  plate_name <- as_str (fst p) ;;
  p <- dict_pop (snd p) "row" ;;
  row_index <- minus_one (fst p) ;;
  p <- dict_pop (snd p) "column" ;;
  col_index <- minus_one (fst p) ;;
  ret (plate_name, row_index, col_index, snd p).

(** [# Find the well to annotate]. *)
Definition find_well (plate_name : string) (row_index col_index : Z) : M Z :=
  plate_id <- get_plate_id plate_name ;;
  well_id <- get_well_id plate_id row_index col_index ;;
  match well_id with
  | None =>
      raise (ValueError ("No well found at plate:" ++ str_int plate_id
                         ++ ", row_index:" ++ str_int row_index
                         ++ ", col_index:" ++ str_int col_index)%string)
  | Some well_id => ret well_id
  end.

Definition msg_exists (well_id : Z) : string :=
  ("MapAnnotation with namespace:" ++ NAMESPACE
   ++ " already exists for well:" ++ str_int well_id)%string.

Definition msg_skipping (well_id : Z) : string :=
  ("Skipping MapAnnotation for well:" ++ str_int well_id)%string.

Definition msg_forcing (ma well_id : Z) : string :=
  ("Forcing update of MapAnnotation:" ++ str_int ma
   ++ " for well:" ++ str_int well_id)%string.

Definition msg_posted (new_ma_id well_id : Z) : string :=
  ("New MapAnnotation:" ++ str_int new_ma_id
   ++ " posted to Well:" ++ str_int well_id)%string.

(** [# check if MapAnnotation already exists for this well and act
    accordingly]. *)
Definition annotate_well (force : bool) (well_id : Z) (record : dict) : M unit :=
  ma_ids <- get_map_annotation_ids well_id NAMESPACE ;;
  match ma_ids with
  | ma0 :: _ =>
      emit (EWarning (msg_exists well_id)) ;;
      if negb force then
        emit (EWarning (msg_skipping well_id))
      else
        emit (EWarning (msg_forcing ma0 well_id)) ;;
        put_map_annotation ma0 record
  | [] =>
      new_ma_id <- post_map_annotation well_id record NAMESPACE ;;
      emit (EPrint (msg_posted new_ma_id well_id))
  end.

Definition annotate_record (force : bool) (record : dict) : M unit :=
  parsed <- parse_record record ;;
  let '(plate_name, row_index, col_index, record) := parsed in
  well_id <- find_well plate_name row_index col_index ;;
  annotate_well force well_id record.

(** The check that no column of [DTYPES] is missing, for one column. *)
Definition check_column (df : DataFrame) (col : string) : M unit :=
  if negb (existsb (String.eqb col) (columns df)) then
    raise (ValueError ("csv missing column " ++ col)%string)
  else ret tt.

(** The loop body on a data row of the table. *)
Definition annotate_row (df : DataFrame) (force : bool) (row : list value)
  : M unit :=
  annotate_record force (record_of df row).

(** [main(csv, force)], from the table read from [csv] on. *)
Definition main (df : DataFrame) (force : bool) : M unit :=
  emit (EConnect OMERO_GROUP OMERO_SERVER 4064 true) ;;
  for_each (check_column df) (keys DTYPES) ;;
  for_each (annotate_row df force) (rows df) ;;
  emit EClose.

(** ** Concrete servers and tables *)

Definition world0 (s : Server) : World := mkWorld s [].

Definition six_columns : list string :=
  ["plate_name"; "row"; "column"; "individual"; "concentration"; "compound"].

Definition plateA_server : Server :=
  mkServer [mkPlate 7 "PlateA"] [mkWell 40 7 0 0; mkWell 41 7 2 4] [].

Definition plateA_df : DataFrame :=
  mkDataFrame six_columns
    [[VStr "PlateA"; VInt 1; VInt 1; VStr "X"; VFloat 0.5; VStr "Y"]].

Definition payload_XY : dict :=
  [("individual", VStr "X"); ("concentration", VFloat 0.5);
   ("compound", VStr "Y")].

Definition plateA_row : list value :=
  [VStr "PlateA"; VInt 1; VInt 1; VStr "X"; VFloat 0.5; VStr "Y"].

Definition plateA_record : dict := record_of plateA_df plateA_row.

(** A row for the well at row 3, column 5. *)
Definition row35 : list value :=
  [VStr "PlateA"; VInt 3; VInt 5; VStr "Z"; VFloat 2; VStr "As"].

Definition record35 : dict := record_of plateA_df row35.

Definition payload_old : dict :=
  [("individual", VStr "W"); ("concentration", VFloat 1); ("compound", VStr "Y")].

(** The well at (0,0) already annotated under [NAMESPACE]: once, and
    twice with a third annotation under another namespace. *)
Definition once_server : Server :=
  with_annotations plateA_server [mkMapAnn 5 40 NAMESPACE payload_old].

Definition twice_server : Server :=
  with_annotations plateA_server
    [mkMapAnn 5 40 NAMESPACE payload_old;
     mkMapAnn 6 40 "other/ns" payload_old;
     mkMapAnn 8 40 NAMESPACE [("individual", VStr "V")]].

(** A table whose second row names a plate the server does not have. *)
Definition rowB : list value :=
  [VStr "PlateB"; VInt 1; VInt 1; VStr "X"; VFloat 0.5; VStr "Y"].

Definition plateB_df : DataFrame :=
  mkDataFrame six_columns [plateA_row; rowB; row35].

(** A table with two rows for the same well and one for another. *)
Definition repeat_df : DataFrame :=
  mkDataFrame six_columns [plateA_row; row35; plateA_row].

(** The world the run on [repeat_df] without [--force] ends in. *)
Definition repeat_world : World :=
  Eval vm_compute in world_of (main repeat_df false (world0 plateA_server)).

(** ** Vocabulary of the statements *)

(** The world after some more events, the server as it was. *)
Definition log (w : World) (evs : list Event) : World :=
  mkWorld (server w) (trace w ++ evs).

(** The stored plates that have a name. *)
Definition named (s : Server) (pname : string) : list Plate :=
  filter (fun p => String.eqb (pl_name p) pname) (plates s).

(** The annotations a well carries under a namespace. *)
Definition carried (s : Server) (well : Z) (ns : string) : list MapAnnotation :=
  filter (on_well well ns) (annotations s).

(** The fields of a row without [plate_name], [row] and [column]. *)
Definition payload (record : dict) : dict :=
  filter (fun kv => negb (existsb (String.eqb (fst kv))
                                  ["plate_name"; "row"; "column"])) record.

(** A row as [dtype=DTYPES] types it: a plate name and two integers. *)
Definition typed_row (record : dict) (pname : string) (r c : Z) : Prop :=
  dict_get record "plate_name" = Some (VStr pname) /\
  dict_get record "row" = Some (VInt r) /\
  dict_get record "column" = Some (VInt c).

(** A row the script can look up: its plate name cell has a text, its row
    and column cells are integers.  A typed row is one, and so is a row
    with an empty plate name cell, under the name ["nan"]. *)
Definition parsed_row (record : dict) (pname : string) (r c : Z) : Prop :=
  (exists v, dict_get record "plate_name" = Some v /\
             plate_name_of v = Some pname) /\
  dict_get record "row" = Some (VInt r) /\
  dict_get record "column" = Some (VInt c).

(** The integer a decimal numeral stands for. *)
Definition read_int (digits : string) : option Z :=
  option_map Z.of_int (NilZero.int_of_string digits).

(** Each (well, namespace) pair carries at most one map annotation. *)
Definition at_most_one (s : Server) : Prop :=
  forall well ns, (List.length (carried s well ns) <= 1)%nat.

(** Annotation identifiers are the keys of the annotations. *)
Definition unique_ids (s : Server) : Prop :=
  NoDup (map ma_id (annotations s)).

Definition is_well_lookup (e : Event) : bool :=
  match e with EGetWellId _ _ _ => true | _ => false end.

Definition is_write (e : Event) : bool :=
  match e with
  | EPutMapAnnotation _ _ | EPostMapAnnotation _ _ _ => true
  | _ => false
  end.

(** The events of a row that is looked up and found. *)
Definition lookup_events (pname : string) (plate row_index col_index : Z)
  : list Event :=
  [EPlateQuery pname; EGetWellId plate row_index col_index].

(** The server after a post on a well and after a put on an annotation. *)
Definition posted (s : Server) (well : Z) (kv : dict) : Server :=
  with_annotations s (annotations s ++ [mkMapAnn (fresh_id s) well NAMESPACE kv]).

Definition updated (s : Server) (ann : Z) (kv : dict) : Server :=
  with_annotations s (map (update_kv ann kv) (annotations s)).

(** The messages of the two lookup failures. *)
Definition msg_no_plate (pname : string) : string :=
  ("No plate found with name " ++ pname)%string.

Definition msg_multiple_plates (pname : string) : string :=
  ("Multiple plates found with name " ++ pname)%string.

Definition msg_no_well (plate row_index col_index : Z) : string :=
  ("No well found at plate:" ++ str_int plate
   ++ ", row_index:" ++ str_int row_index
   ++ ", col_index:" ++ str_int col_index)%string.

(** The events of the three ways a looked-up row ends. *)
Definition post_events (s : Server) (well : Z) (kv : dict) : list Event :=
  [EGetMapAnnotationIds well NAMESPACE;
   EPostMapAnnotation well kv NAMESPACE;
   EPrint (msg_posted (fresh_id s) well)].

Definition put_events (well ann : Z) (kv : dict) : list Event :=
  [EGetMapAnnotationIds well NAMESPACE;
   EWarning (msg_exists well);
   EWarning (msg_forcing ann well);
   EPutMapAnnotation ann kv].

Definition skip_events (well : Z) : list Event :=
  [EGetMapAnnotationIds well NAMESPACE;
   EWarning (msg_exists well);
   EWarning (msg_skipping well)].

(** The ways the loop body ends on a row, from a world [w]. *)
Inductive row_step (force : bool) (record : dict) (w : World)
  : Outcome unit -> Prop :=
| step_untyped (e : Exn) :
    parse_record record w = Raised e w ->
    row_step force record w (Raised e w)
| step_no_plate (pname : string) (r c : Z) :
    parsed_row record pname r c ->
    named (server w) pname = [] ->
    row_step force record w
      (Raised (ValueError (msg_no_plate pname)) (log w [EPlateQuery pname]))
| step_multiple_plates (pname : string) (r c : Z) (p q : Plate) (l : list Plate) :
    parsed_row record pname r c ->
    named (server w) pname = p :: q :: l ->
    row_step force record w
      (Raised (ValueError (msg_multiple_plates pname))
              (log w [EPlateQuery pname]))
| step_no_well (pname : string) (r c : Z) (p : Plate) :
    parsed_row record pname r c ->
    named (server w) pname = [p] ->
    well_at (server w) (pl_id p) (r - 1) (c - 1) = None ->
    row_step force record w
      (Raised (ValueError (msg_no_well (pl_id p) (r - 1) (c - 1)))
              (log w (lookup_events pname (pl_id p) (r - 1) (c - 1))))
| step_post (pname : string) (r c : Z) (p : Plate) (well : Z) :
    parsed_row record pname r c ->
    named (server w) pname = [p] ->
    well_at (server w) (pl_id p) (r - 1) (c - 1) = Some well ->
    carried (server w) well NAMESPACE = [] ->
    row_step force record w
      (Returned tt
         (mkWorld (posted (server w) well (payload record))
            (trace w ++ lookup_events pname (pl_id p) (r - 1) (c - 1)
                     ++ post_events (server w) well (payload record))))
| step_put (pname : string) (r c : Z) (p : Plate) (well : Z)
           (a : MapAnnotation) (l : list MapAnnotation) :
    parsed_row record pname r c ->
    named (server w) pname = [p] ->
    well_at (server w) (pl_id p) (r - 1) (c - 1) = Some well ->
    carried (server w) well NAMESPACE = a :: l ->
    force = true ->
    row_step force record w
      (Returned tt
         (mkWorld (updated (server w) (ma_id a) (payload record))
            (trace w ++ lookup_events pname (pl_id p) (r - 1) (c - 1)
                     ++ put_events well (ma_id a) (payload record))))
| step_skip (pname : string) (r c : Z) (p : Plate) (well : Z)
            (a : MapAnnotation) (l : list MapAnnotation) :
    parsed_row record pname r c ->
    named (server w) pname = [p] ->
    well_at (server w) (pl_id p) (r - 1) (c - 1) = Some well ->
    carried (server w) well NAMESPACE = a :: l ->
    force = false ->
    row_step force record w
      (Returned tt
         (log w (lookup_events pname (pl_id p) (r - 1) (c - 1)
                 ++ skip_events well))).

(** A row that is looked up (its plate name cell has a text, the name of
    exactly one plate, which has a well at the row's position) and whose
    well carries an annotation under [NAMESPACE]. *)
Definition annotated (s : Server) (record : dict) : Prop :=
  exists pname r c p well,
    parsed_row record pname r c /\
    named s pname = [p] /\
    well_at s (pl_id p) (r - 1) (c - 1) = Some well /\
    carried s well NAMESPACE <> [].

(** A server with the same plates and wells and some more annotations. *)
Definition extends (s s' : Server) : Prop :=
  plates s' = plates s /\ wells s' = wells s /\
  exists l, annotations s' = annotations s ++ l.

Definition connect_event : Event :=
  EConnect OMERO_GROUP OMERO_SERVER 4064 true.

(** The warnings that tell that a row is skipped. *)
Definition is_skip_warning (e : Event) : bool :=
  match e with
  | EWarning msg => String.prefix "Skipping MapAnnotation for well:" msg
  | _ => false
  end.

(** A table with a seventh column and one row. *)
Definition batch_df : DataFrame :=
  mkDataFrame (six_columns ++ ["batch"])
    [[VStr "PlateA"; VInt 1; VInt 1; VStr "X"; VFloat 0.5; VStr "Y"; VStr "b7"]].

Definition batch_record : dict :=
  record_of batch_df
    [VStr "PlateA"; VInt 1; VInt 1; VStr "X"; VFloat 0.5; VStr "Y"; VStr "b7"].

(** Another row for the well at (0,0). *)
Definition plateA_row2 : list value :=
  [VStr "PlateA"; VInt 1; VInt 1; VStr "W"; VFloat 1; VStr "Y"].

Definition plateA_record2 : dict := record_of plateA_df plateA_row2.

(** A table with two rows for the well at (0,0), with different
    payloads. *)
Definition two_df : DataFrame :=
  mkDataFrame six_columns [plateA_row2; plateA_row].

(** A server with a plate named [nan], and a table whose second row has an
    empty plate name cell. *)
Definition nan_server : Server :=
  mkServer [mkPlate 7 "PlateA"; mkPlate 9 "nan"]
           [mkWell 40 7 0 0; mkWell 50 9 0 0] [].

Definition nan_row : list value :=
  [VFloat nan; VInt 1; VInt 1; VStr "N"; VFloat 2; VStr "As"].

Definition nan_df : DataFrame :=
  mkDataFrame six_columns [plateA_row; nan_row].

(** ** Vocabulary of the further statements *)

(** What a put leaves of an annotation: its identifier, its well and its
    namespace. *)
Definition skeleton (a : MapAnnotation) : Z * Z * string :=
  (ma_id a, ma_well a, ma_ns a).

(** A server with the same plates and wells, whose annotations are the
    previous ones, with their identifiers, wells and namespaces, followed by
    some more. *)
Definition grows (s s' : Server) : Prop :=
  plates s' = plates s /\ wells s' = wells s /\
  exists l, map skeleton (annotations s') = map skeleton (annotations s) ++ l.

Definition is_close (e : Event) : bool :=
  match e with EClose => true | _ => false end.

Definition is_plate_query (e : Event) : bool :=
  match e with EPlateQuery _ => true | _ => false end.

Definition is_annotation_query (e : Event) : bool :=
  match e with EGetMapAnnotationIds _ _ => true | _ => false end.

Definition is_post (e : Event) : bool :=
  match e with EPostMapAnnotation _ _ _ => true | _ => false end.

Definition is_put (e : Event) : bool :=
  match e with EPutMapAnnotation _ _ => true | _ => false end.

Definition count (f : Event -> bool) (evs : list Event) : nat :=
  List.length (filter f evs).

(** A table as [read_csv] gives it: every data row has a cell per column. *)
Definition full_rows (df : DataFrame) : Prop :=
  Forall (fun row => List.length row = List.length (columns df)) (rows df).

(** The well of the store with an identifier, on the plate of a name, at a
    position. *)
Definition well_of (s : Server) (well : Z) (pname : string)
           (row_index col_index : Z) : Prop :=
  exists p wl,
    In p (plates s) /\ pl_name p = pname /\
    In wl (wells s) /\ w_id wl = well /\ w_plate wl = pl_id p /\
    w_row wl = row_index /\ w_column wl = col_index.

(** A server with the same plates and wells, whose annotations are the
    previous ones, as they were, followed by new ones under [NAMESPACE]. *)
Definition posts_only (s s' : Server) : Prop :=
  plates s' = plates s /\ wells s' = wells s /\
  exists l, annotations s' = annotations s ++ l /\
            Forall (fun a => ma_ns a = NAMESPACE) l.

(** From unique identifiers to unique identifiers, with what every well
    carries under the namespaces other than [NAMESPACE] as it was. *)
Definition frames_other_namespaces (s s' : Server) : Prop :=
  unique_ids s ->
  unique_ids s' /\
  forall well ns, ns <> NAMESPACE -> carried s' well ns = carried s well ns.

(** A table whose rows are all typed as [dtype=DTYPES] types them. *)
Definition typed_rows (df : DataFrame) : Prop :=
  Forall (fun row => exists pname r c, typed_row (record_of df row) pname r c)
         (rows df).

(** The four errors of the script. *)
Definition script_error (e : Exn) : Prop :=
  (exists col, In col (keys DTYPES) /\
               e = ValueError ("csv missing column " ++ col)) \/
  (exists pname, e = ValueError (msg_no_plate pname)) \/
  (exists pname, e = ValueError (msg_multiple_plates pname)) \/
  (exists plate ri ci, e = ValueError (msg_no_well plate ri ci)).

(** The puts of a run with [--force], in their order: the identifier
    written and the payload. *)
Definition apply_ops (ops : list (Z * dict)) (a : MapAnnotation)
  : MapAnnotation :=
  fold_left (fun a op => update_kv (fst op) (snd op) a) ops a.

(** A row that is looked up (its plate name cell has a text, the name of
    exactly one plate, which has a well at the row's position) and whose
    well carries, first, under [NAMESPACE], the annotation of an
    identifier. *)
Definition writes_to (s : Server) (record : dict) (ann : Z) : Prop :=
  exists pname r c p well a l,
    parsed_row record pname r c /\
    named s pname = [p] /\
    well_at s (pl_id p) (r - 1) (c - 1) = Some well /\
    carried s well NAMESPACE = a :: l /\ ma_id a = ann.

(** A store on which a list of puts changes nothing. *)
Definition settled (ops : list (Z * dict)) (s : Server) : Prop :=
  forall a, In a (annotations s) -> apply_ops ops a = a.

(** The rows of a table and the puts a run with [--force] makes for them on
    a store where every row's well is annotated. *)
Definition puts_of (df : DataFrame) (s : Server)
           (l : list (list value)) (ops : list (Z * dict)) : Prop :=
  Forall2 (fun row op => writes_to s (record_of df row) (fst op) /\
                         snd op = payload (record_of df row)) l ops.

(** * Properties *)

(** ** The column check *)

Lemma existsb_eqb_In (col : string) (l : list string) :
  existsb (String.eqb col) l = true <-> In col l.
Proof.
  rewrite existsb_exists. split.
  - intros [x [Hin Heq]]. apply String.eqb_eq in Heq. now subst.
  - intros Hin. exists col. split; [assumption | apply String.eqb_refl].
Qed.

Lemma check_column_present (df : DataFrame) (col : string) (w : World) :
  In col (columns df) -> check_column df col w = Returned tt w.
Proof.
  intros Hin. unfold check_column.
  apply existsb_eqb_In in Hin. now rewrite Hin.
Qed.

Lemma check_column_absent (df : DataFrame) (col : string) (w : World) :
  ~ In col (columns df) ->
  check_column df col w = Raised (ValueError ("csv missing column " ++ col)) w.
Proof.
  intros Hnin. unfold check_column.
  destruct (existsb (String.eqb col) (columns df)) eqn:E; [|reflexivity].
  apply existsb_eqb_In in E. contradiction.
Qed.

Lemma check_columns_present (df : DataFrame) (cols : list string) (w : World) :
  (forall col, In col cols -> In col (columns df)) ->
  for_each (check_column df) cols w = Returned tt w.
Proof.
  induction cols as [|c cols IH]; intros Hall; [reflexivity|].
  cbn [for_each]. unfold bind.
  rewrite check_column_present by (apply Hall; now left).
  apply IH. intros col Hc. apply Hall. now right.
Qed.

(** C10.  A table with the six required columns and no data row: the run
    returns normally, the only things it does are to connect and to close
    the connection (no plate, well or annotation query, no post and no
    put), and the server is as it was. *)
Theorem main_no_rows (df : DataFrame) (force : bool) (w : World) :
  (forall col, In col (keys DTYPES) -> In col (columns df)) ->
  rows df = [] ->
  main df force w =
  Returned tt
    (mkWorld (server w)
       (trace w ++ [EConnect OMERO_GROUP OMERO_SERVER 4064 true; EClose])).
Proof.
  intros Hcols Hrows. unfold main, bind at 1. cbn [emit].
  unfold bind at 1. rewrite check_columns_present by assumption.
  rewrite Hrows. unfold for_each, bind, ret, emit. cbn [server trace].
  now rewrite <- app_assoc.
Qed.

Lemma main_no_rows_witness :
  main (mkDataFrame six_columns []) true (world0 plateA_server) =
  Returned tt
    (mkWorld plateA_server
       [EConnect OMERO_GROUP OMERO_SERVER 4064 true; EClose]).
Proof.
  apply (main_no_rows (mkDataFrame six_columns []) true (world0 plateA_server)).
  - intros col Hin. exact Hin.
  - reflexivity.
Defined.

(** ** Dicts and the parsing of a row *)

Ltac run :=
  unfold bind, ret, raise, emit, get_server, set_server;
  cbn [server trace fst snd].

Lemma dict_get_remove_other (d : dict) (k k' : string) :
  k <> k' -> dict_get (dict_remove d k') k = dict_get d k.
Proof.
  intros Hne. unfold dict_remove, key_is.
  induction d as [|[k0 v0] d IH]; [reflexivity|].
  cbn [filter fst dict_get].
  destruct (String.eqb k0 k') eqn:E'; cbn [negb].
  - apply String.eqb_eq in E'. subst k0.
    destruct (String.eqb k' k) eqn:E; [|exact IH].
    apply String.eqb_eq in E. congruence.
  - cbn [dict_get]. destruct (String.eqb k0 k); [reflexivity | exact IH].
Qed.

Lemma dict_set_new (d : dict) (k : string) (v : value) :
  ~ In k (map fst d) -> dict_set d k v = d ++ [(k, v)].
Proof.
  induction d as [|[k0 v0] d IH]; intros Hnin; [reflexivity|].
  cbn [dict_set app]. cbn [map fst] in Hnin.
  destruct (String.eqb k0 k) eqn:E.
  - apply String.eqb_eq in E. subst k0. exfalso. apply Hnin. now left.
  - rewrite IH; [reflexivity|]. intros Hin. apply Hnin. now right.
Qed.

Lemma fold_dict_set_unique (items : list (string * value)) (d : dict) :
  NoDup (map fst (d ++ items)) ->
  fold_left (fun d kv => dict_set d (fst kv) (snd kv)) items d = d ++ items.
Proof.
  revert d. induction items as [|[k v] items IH]; intros d Hnd.
  - now rewrite app_nil_r.
  - cbn [fold_left fst snd]. rewrite dict_set_new.
    + rewrite IH; rewrite <- app_assoc; [reflexivity | exact Hnd].
    + rewrite map_app in Hnd. cbn [map fst] in Hnd.
      apply NoDup_remove_2 in Hnd. intros Hin. apply Hnd.
      apply in_or_app. now left.
Qed.

Lemma keys_combine {V} (ks : list string) (vs : list V) :
  List.length vs = List.length ks -> keys (combine ks vs) = ks.
Proof.
  unfold keys. revert vs. induction ks as [|k ks IH]; intros [|v vs] Hlen;
    try reflexivity; try discriminate.
  cbn [combine map fst]. f_equal. apply IH. now inversion Hlen.
Qed.

(** A table with distinct column names: the dict of a row has the cells of
    the row under the names of their columns, in the order of the columns. *)
Lemma record_of_unique (df : DataFrame) (row : list value) :
  NoDup (columns df) -> List.length row = List.length (columns df) ->
  record_of df row = combine (columns df) row.
Proof.
  intros Hnd Hlen. unfold record_of, dict_of_items.
  rewrite fold_dict_set_unique; [reflexivity|].
  cbn [app]. fold (keys (combine (columns df) row)).
  now rewrite keys_combine.
Qed.

Lemma payload_is_three_pops (record : dict) :
  dict_remove (dict_remove (dict_remove record "plate_name") "row") "column"
  = payload record.
Proof.
  unfold dict_remove, payload, key_is.
  induction record as [|[k v] d IH]; [reflexivity|].
  cbn [filter fst existsb].
  destruct (String.eqb k "plate_name") eqn:E1; cbn [negb orb];
    [exact IH|].
  cbn [filter fst].
  destruct (String.eqb k "row") eqn:E2; cbn [negb orb]; [exact IH|].
  cbn [filter fst].
  destruct (String.eqb k "column") eqn:E3; cbn [negb orb]; [exact IH|].
  now rewrite IH.
Qed.

(** No key of the three is left in the payload, the others keep their
    value. *)
Lemma payload_get (record : dict) (k : string) :
  dict_get (payload record) k =
  if existsb (String.eqb k) ["plate_name"; "row"; "column"] then None
  else dict_get record k.
Proof.
  induction record as [|[k0 v0] d IH].
  - cbn. now destruct (_ || _).
  - unfold payload in *. cbn [filter fst dict_get].
    destruct (existsb (String.eqb k0) _) eqn:E0; cbn [negb].
    + rewrite IH. destruct (String.eqb k0 k) eqn:E; [|reflexivity].
      apply String.eqb_eq in E. subst k0. now rewrite E0.
    + cbn [dict_get]. rewrite IH.
      destruct (String.eqb k0 k) eqn:E; [|reflexivity].
      apply String.eqb_eq in E. subst k0. now rewrite E0.
Qed.

Lemma typed_row_parsed (record : dict) (pname : string) (r c : Z) :
  typed_row record pname r c -> parsed_row record pname r c.
Proof.
  intros (Hp & Hr & Hc). repeat split; try assumption.
  exists (VStr pname). now split.
Qed.

Lemma parse_record_parsed (record : dict) (pname : string) (r c : Z) (w : World) :
  parsed_row record pname r c ->
  parse_record record w = Returned (pname, r - 1, c - 1, payload record) w.
Proof.
  intros ((v & Hp & Hv) & Hr & Hc). unfold parse_record, dict_pop.
  rewrite Hp. run. unfold as_str. rewrite Hv. run.
  rewrite dict_get_remove_other by discriminate. rewrite Hr. run.
  cbn [minus_one]. run.
  rewrite !dict_get_remove_other by discriminate. rewrite Hc. run.
  cbn [minus_one]. run. now rewrite payload_is_three_pops.
Qed.

Lemma parse_record_typed (record : dict) (pname : string) (r c : Z) (w : World) :
  typed_row record pname r c ->
  parse_record record w = Returned (pname, r - 1, c - 1, payload record) w.
Proof.
  intros Ht. apply parse_record_parsed. now apply typed_row_parsed.
Qed.

(** Parsing has no effect, and it succeeds on the rows that can be looked
    up only. *)
Lemma parse_record_returned (record : dict) (w w' : World)
      (pname : string) (ri ci : Z) (rest : dict) :
  parse_record record w = Returned (pname, ri, ci, rest) w' ->
  w' = w /\ rest = payload record /\
  exists r c, parsed_row record pname r c /\ ri = r - 1 /\ ci = c - 1.
Proof.
  unfold parse_record, dict_pop.
  destruct (dict_get record "plate_name") as [v1|] eqn:Hp; run; [|discriminate].
  unfold as_str.
  destruct (plate_name_of v1) as [s|] eqn:Hv; run; [|discriminate].
  rewrite dict_get_remove_other by discriminate.
  destruct (dict_get record "row") as [v2|] eqn:Hr; run; [|discriminate].
  destruct v2 as [|r|]; cbn [minus_one]; run; try discriminate.
  rewrite !dict_get_remove_other by discriminate.
  destruct (dict_get record "column") as [v3|] eqn:Hc; run; [|discriminate].
  destruct v3 as [|c|]; cbn [minus_one]; run; try discriminate.
  rewrite payload_is_three_pops. intros H. inversion H; subst.
  repeat split. exists r, c. repeat split; try assumption.
  exists v1. now split.
Qed.

Lemma parse_record_raised (record : dict) (w w' : World) (e : Exn) :
  parse_record record w = Raised e w' -> w' = w.
Proof.
  unfold parse_record, dict_pop.
  destruct (dict_get record "plate_name") as [v1|]; run;
    [|intros H; now inversion H].
  unfold as_str.
  destruct (plate_name_of v1) as [s|]; run; [|intros H; now inversion H].
  destruct (dict_get _ "row") as [v2|]; run; [|intros H; now inversion H].
  destruct v2 as [|r|]; cbn [minus_one]; run; try (intros H; now inversion H).
  destruct (dict_get _ "column") as [v3|]; run; [|intros H; now inversion H].
  destruct v3 as [|c|]; cbn [minus_one]; run; intros H; now inversion H.
Qed.

(** ** The three steps of the loop body, run *)

Lemma log_log (w : World) (l1 l2 : list Event) :
  log (log w l1) l2 = log w (l1 ++ l2).
Proof. unfold log. cbn [server trace]. now rewrite app_assoc. Qed.

Lemma get_plate_id_run (pname : string) (w : World) :
  get_plate_id pname w =
  match named (server w) pname with
  | [] => Raised (ValueError (msg_no_plate pname)) (log w [EPlateQuery pname])
  | [p] => Returned (pl_id p) (log w [EPlateQuery pname])
  | _ :: _ :: _ =>
      Raised (ValueError (msg_multiple_plates pname)) (log w [EPlateQuery pname])
  end.
Proof.
  unfold get_plate_id, projection_plate, plate_ids. run. fold (named (server w) pname).
  destruct (named (server w) pname) as [|p [|q l]]; reflexivity.
Qed.

Lemma find_well_run (pname : string) (ri ci : Z) (w : World) :
  find_well pname ri ci w =
  match named (server w) pname with
  | [] => Raised (ValueError (msg_no_plate pname)) (log w [EPlateQuery pname])
  | [p] =>
      match well_at (server w) (pl_id p) ri ci with
      | Some well => Returned well (log w (lookup_events pname (pl_id p) ri ci))
      | None => Raised (ValueError (msg_no_well (pl_id p) ri ci))
                       (log w (lookup_events pname (pl_id p) ri ci))
      end
  | _ :: _ :: _ =>
      Raised (ValueError (msg_multiple_plates pname)) (log w [EPlateQuery pname])
  end.
Proof.
  unfold find_well. unfold bind at 1. rewrite get_plate_id_run.
  destruct (named (server w) pname) as [|p [|q l]]; try reflexivity.
  unfold get_well_id. run.
  unfold log, lookup_events. cbn [server trace]. rewrite <- app_assoc. cbn [app].
  destruct (well_at (server w) (pl_id p) ri ci); reflexivity.
Qed.

Lemma carried_has_id (s : Server) (well : Z) (ns : string)
      (a : MapAnnotation) (l : list MapAnnotation) :
  carried s well ns = a :: l ->
  existsb (fun b => ma_id b =? ma_id a) (annotations s) = true.
Proof.
  intros H. apply existsb_exists. exists a. split; [|apply Z.eqb_refl].
  assert (In a (carried s well ns)) as Hin by (rewrite H; now left).
  unfold carried in Hin. now apply filter_In in Hin.
Qed.

Lemma annotate_well_run (force : bool) (well : Z) (kv : dict) (w : World) :
  annotate_well force well kv w =
  match carried (server w) well NAMESPACE with
  | [] =>
      Returned tt
        (mkWorld (posted (server w) well kv)
           (trace w ++ post_events (server w) well kv))
  | a :: _ =>
      if force then
        Returned tt
          (mkWorld (updated (server w) (ma_id a) kv)
             (trace w ++ put_events well (ma_id a) kv))
      else
        Returned tt (log w (skip_events well))
  end.
Proof.
  unfold annotate_well, get_map_annotation_ids, map_annotation_ids. run.
  fold (carried (server w) well NAMESPACE).
  destruct (carried (server w) well NAMESPACE) as [|a l] eqn:Hc; cbn [map].
  - unfold post_map_annotation. run. unfold posted, with_annotations.
    rewrite <- !app_assoc. reflexivity.
  - destruct force; cbn [negb].
    + unfold put_map_annotation. run.
      rewrite (carried_has_id _ _ _ _ _ Hc). run.
      unfold updated, with_annotations. rewrite <- !app_assoc. reflexivity.
    + unfold log. cbn [server trace]. rewrite <- !app_assoc. reflexivity.
Qed.

(** The loop body on a row that can be looked up. *)
Lemma annotate_record_parsed (force : bool) (record : dict)
      (pname : string) (r c : Z) (w : World) :
  parsed_row record pname r c ->
  annotate_record force record w =
  match find_well pname (r - 1) (c - 1) w with
  | Returned well w' => annotate_well force well (payload record) w'
  | Raised e w' => Raised e w'
  end.
Proof.
  intros Ht. unfold annotate_record. unfold bind at 1.
  rewrite (parse_record_parsed _ _ _ _ _ Ht). reflexivity.
Qed.

Lemma annotate_record_looked_up (force : bool) (record : dict)
      (pname : string) (r c : Z) (p : Plate) (well : Z) (w : World) :
  parsed_row record pname r c ->
  named (server w) pname = [p] ->
  well_at (server w) (pl_id p) (r - 1) (c - 1) = Some well ->
  annotate_record force record w =
  annotate_well force well (payload record)
                (log w (lookup_events pname (pl_id p) (r - 1) (c - 1))).
Proof.
  intros Ht Hn Hw. rewrite (annotate_record_parsed _ _ _ _ _ _ Ht).
  rewrite find_well_run, Hn, Hw. reflexivity.
Qed.

(** The loop body on a typed row. *)
Lemma annotate_record_typed (force : bool) (record : dict)
      (pname : string) (r c : Z) (w : World) :
  typed_row record pname r c ->
  annotate_record force record w =
  match find_well pname (r - 1) (c - 1) w with
  | Returned well w' => annotate_well force well (payload record) w'
  | Raised e w' => Raised e w'
  end.
Proof.
  intros Ht. unfold annotate_record. unfold bind at 1.
  rewrite (parse_record_typed _ _ _ _ _ Ht). reflexivity.
Qed.

(** Every run of the loop body is one of the steps of [row_step]. *)
Lemma annotate_record_step (force : bool) (record : dict) (w : World) :
  row_step force record w (annotate_record force record w).
Proof.
  unfold annotate_record. unfold bind at 1.
  destruct (parse_record record w) as [[[[pname ri] ci] rest] w0|e w0] eqn:Hp.
  - apply parse_record_returned in Hp.
    destruct Hp as (-> & -> & r & c & Ht & -> & ->).
    unfold bind. rewrite find_well_run.
    destruct (named (server w) pname) as [|p [|q l]] eqn:Hn.
    + eapply step_no_plate; eassumption.
    + destruct (well_at (server w) (pl_id p) (r - 1) (c - 1)) as [well|] eqn:Hw.
      * rewrite annotate_well_run. cbn [log server trace].
        destruct (carried (server w) well NAMESPACE) as [|a l] eqn:Hc.
        -- rewrite <- app_assoc. eapply step_post; eassumption.
        -- destruct force eqn:Hf.
           ++ rewrite <- app_assoc. eapply step_put; eauto.
           ++ rewrite log_log. eapply step_skip; eauto.
      * eapply step_no_well; eassumption.
    + eapply step_multiple_plates; eassumption.
  - pose proof (parse_record_raised _ _ _ _ Hp) as ->.
    now apply step_untyped.
Qed.

Lemma annotate_record_resolved (force : bool) (record : dict)
      (pname : string) (r c : Z) (p : Plate) (well : Z) (w : World) :
  typed_row record pname r c ->
  named (server w) pname = [p] ->
  well_at (server w) (pl_id p) (r - 1) (c - 1) = Some well ->
  annotate_record force record w =
  annotate_well force well (payload record)
                (log w (lookup_events pname (pl_id p) (r - 1) (c - 1))).
Proof.
  intros Ht Hn Hw. rewrite (annotate_record_typed _ _ _ _ _ _ Ht).
  rewrite find_well_run, Hn, Hw. reflexivity.
Qed.

(** ** The store after a post and after a put *)

Lemma fresh_id_above (s : Server) (a : MapAnnotation) :
  In a (annotations s) -> ma_id a < fresh_id s.
Proof.
  unfold fresh_id. induction (annotations s) as [|b l IH]; [intros []|].
  cbn [map fold_right]. intros [->|Hin]; [lia|].
  specialize (IH Hin). lia.
Qed.

Lemma fresh_id_new (s : Server) :
  ~ In (fresh_id s) (map ma_id (annotations s)).
Proof.
  intros Hin. apply in_map_iff in Hin. destruct Hin as (a & Heq & Hin).
  apply fresh_id_above in Hin. lia.
Qed.

Lemma carried_posted (s : Server) (well well' : Z) (kv : dict) (ns : string) :
  carried (posted s well kv) well' ns =
  carried s well' ns ++
  (if on_well well' ns (mkMapAnn (fresh_id s) well NAMESPACE kv)
   then [mkMapAnn (fresh_id s) well NAMESPACE kv] else []).
Proof.
  unfold carried, posted, with_annotations. cbn [annotations].
  rewrite filter_app. reflexivity.
Qed.

Lemma on_well_self (well : Z) (ns : string) (a : MapAnnotation) :
  ma_well a = well -> ma_ns a = ns -> on_well well ns a = true.
Proof.
  intros <- <-. unfold on_well. now rewrite Z.eqb_refl, String.eqb_refl.
Qed.

Lemma on_well_update_kv (well ann : Z) (ns : string) (kv : dict)
      (a : MapAnnotation) :
  on_well well ns (update_kv ann kv a) = on_well well ns a.
Proof. unfold update_kv. now destruct (ma_id a =? ann). Qed.

Lemma carried_updated (s : Server) (ann well : Z) (kv : dict) (ns : string) :
  carried (updated s ann kv) well ns =
  map (update_kv ann kv) (carried s well ns).
Proof.
  unfold carried, updated, with_annotations. cbn [annotations].
  induction (annotations s) as [|a l IH]; [reflexivity|].
  cbn [map filter]. rewrite on_well_update_kv.
  destruct (on_well well ns a); cbn [map]; now rewrite IH.
Qed.

Lemma ma_id_update_kv (ann : Z) (kv : dict) (a : MapAnnotation) :
  ma_id (update_kv ann kv a) = ma_id a.
Proof. unfold update_kv. now destruct (ma_id a =? ann). Qed.

Lemma update_kv_other (ann : Z) (kv : dict) (a : MapAnnotation) :
  ma_id a <> ann -> update_kv ann kv a = a.
Proof.
  intros Hne. unfold update_kv.
  destruct (ma_id a =? ann) eqn:E; [|reflexivity].
  apply Z.eqb_eq in E. contradiction.
Qed.

Lemma update_kv_same (kv : dict) (a : MapAnnotation) :
  update_kv (ma_id a) kv a = set_kv kv a.
Proof. unfold update_kv. now rewrite Z.eqb_refl. Qed.

Lemma map_annotation_ids_updated (s : Server) (ann well : Z) (kv : dict)
      (ns : string) :
  map_annotation_ids (updated s ann kv) well ns = map_annotation_ids s well ns.
Proof.
  unfold map_annotation_ids. fold (carried (updated s ann kv) well ns).
  fold (carried s well ns). rewrite carried_updated, map_map.
  apply map_ext. intros a. apply ma_id_update_kv.
Qed.

(** [str(n)] is the decimal numeral of [n]: read back, it gives [n]. *)
Lemma read_int_str_int (z : Z) : read_int (str_int z) = Some z.
Proof.
  unfold read_int, str_int. rewrite NilZero.isi.
  - cbn [option_map]. now rewrite DecimalZ.of_to.
  - destruct z; cbn [Z.to_int]; try discriminate.
    intros H. inversion H as [Hp].
    now apply DecimalPos.Unsigned.to_uint_nonnil in Hp.
  - destruct z; cbn [Z.to_int]; try discriminate.
    intros H. inversion H as [Hp].
    now apply DecimalPos.Unsigned.to_uint_nonnil in Hp.
Qed.

(** C1.  A typed row whose plate name is the name of exactly one plate,
    whose position (row - 1, column - 1) is that of a well of the plate,
    the well carrying no annotation under [NAMESPACE]: the loop body
    returns, it posts one annotation, on that well, under [NAMESPACE], with
    the row's fields without [plate_name], [row] and [column] as its
    key-value pairs; the annotation is the only one added (the store's
    annotations are the previous ones followed by it, under an identifier
    not in use) and the only one the well carries afterwards; and the last
    thing the body does is to print the line
    [New MapAnnotation:<id> posted to Well:<well>], in which [<id>] is the
    decimal numeral of the new annotation's identifier and [<well>] that of
    the well's: read back, the numerals give the two identifiers. *)
Theorem annotate_record_creates (force : bool) (record : dict)
        (pname : string) (r c : Z) (p : Plate) (well : Z) (w : World) :
  typed_row record pname r c ->
  named (server w) pname = [p] ->
  well_at (server w) (pl_id p) (r - 1) (c - 1) = Some well ->
  carried (server w) well NAMESPACE = [] ->
  exists w',
    annotate_record force record w = Returned tt w' /\
    annotations (server w') =
      annotations (server w)
      ++ [mkMapAnn (fresh_id (server w)) well NAMESPACE (payload record)] /\
    ~ In (fresh_id (server w)) (map ma_id (annotations (server w))) /\
    carried (server w') well NAMESPACE =
      [mkMapAnn (fresh_id (server w)) well NAMESPACE (payload record)] /\
    plates (server w') = plates (server w) /\
    wells (server w') = wells (server w) /\
    trace w' =
      trace w ++
      [EPlateQuery pname; EGetWellId (pl_id p) (r - 1) (c - 1);
       EGetMapAnnotationIds well NAMESPACE;
       EPostMapAnnotation well (payload record) NAMESPACE;
       EPrint ("New MapAnnotation:" ++ str_int (fresh_id (server w))
               ++ " posted to Well:" ++ str_int well)%string] /\
    read_int (str_int (fresh_id (server w))) = Some (fresh_id (server w)) /\
    read_int (str_int well) = Some well.
Proof.
  intros Ht Hn Hw Hc.
  rewrite (annotate_record_resolved _ _ _ _ _ _ _ _ Ht Hn Hw).
  rewrite annotate_well_run. cbn [log server trace]. rewrite Hc.
  eexists. split; [reflexivity|]. cbn [server trace].
  split; [reflexivity|]. split; [apply fresh_id_new|].
  split; [rewrite carried_posted, Hc; now rewrite on_well_self|].
  split; [reflexivity|]. split; [reflexivity|].
  split; [now rewrite <- app_assoc|].
  split; apply read_int_str_int.
Qed.

Lemma annotate_record_creates_witness :
  exists w',
    annotate_record false plateA_record (world0 plateA_server) = Returned tt w' /\
    annotations (server w') = [mkMapAnn 1 40 NAMESPACE payload_XY] /\
    trace w' =
      [EPlateQuery "PlateA"; EGetWellId 7 0 0;
       EGetMapAnnotationIds 40 NAMESPACE;
       EPostMapAnnotation 40 payload_XY NAMESPACE;
       EPrint "New MapAnnotation:1 posted to Well:40"] /\
    read_int "1" = Some 1.
Proof.
  destruct (annotate_record_creates false plateA_record "PlateA" 1 1
              (mkPlate 7 "PlateA") 40 (world0 plateA_server))
    as (w' & Hrun & Hann & _ & _ & _ & _ & Htr & Hid & _).
  - repeat split; reflexivity.
  - reflexivity.
  - reflexivity.
  - reflexivity.
  - exists w'. split; [exact Hrun|]. split; [exact Hann|].
    split; [exact Htr | exact Hid].
Defined.

Lemma filter_map_NoDup {A B} (f : A -> B) (g : A -> bool) (l : list A) :
  NoDup (map f l) -> NoDup (map f (filter g l)).
Proof.
  induction l as [|x l IH]; cbn [map filter]; intros Hnd; [constructor|].
  inversion Hnd as [|? ? Hnin Hnd']; subst.
  destruct (g x); cbn [map]; [|now apply IH].
  constructor; [|now apply IH].
  intros Hin. apply Hnin. apply in_map_iff in Hin.
  destruct Hin as (y & Heq & Hy). apply filter_In in Hy.
  apply in_map_iff. exists y. now split.
Qed.

(** With unique identifiers, the annotations a well carries after the first
    one have other identifiers than the first. *)
Lemma carried_others (s : Server) (well : Z) (ns : string)
      (a : MapAnnotation) (l : list MapAnnotation) :
  unique_ids s -> carried s well ns = a :: l ->
  forall b, In b l -> ma_id b <> ma_id a.
Proof.
  intros Hu Hc b Hb Heq.
  apply (filter_map_NoDup ma_id (on_well well ns)) in Hu.
  fold (carried s well ns) in Hu. rewrite Hc in Hu. cbn [map] in Hu.
  inversion Hu as [|? ? Hnin _]; subst. apply Hnin.
  rewrite <- Heq. now apply in_map.
Qed.

Lemma map_update_kv_others (ann : Z) (kv : dict) (l : list MapAnnotation) :
  (forall b, In b l -> ma_id b <> ann) -> map (update_kv ann kv) l = l.
Proof.
  induction l as [|b l IH]; intros H; [reflexivity|].
  cbn [map]. rewrite update_kv_other by (apply H; now left).
  rewrite IH; [reflexivity|]. intros b' Hb'. apply H. now right.
Qed.

(** C3.  A typed row whose well already carries an annotation under
    [NAMESPACE], with [--force]: the loop body returns after a put on the
    identifier of the (first) annotation carried; that annotation now has the
    row's payload as its key-value pairs and is otherwise as before, no
    annotation is added: the store has as many annotations as before and
    every well carries the same identifiers under every namespace. *)
Theorem annotate_record_force_overwrites (record : dict)
        (pname : string) (r c : Z) (p : Plate) (well : Z)
        (a : MapAnnotation) (l : list MapAnnotation) (w : World) :
  typed_row record pname r c ->
  named (server w) pname = [p] ->
  well_at (server w) (pl_id p) (r - 1) (c - 1) = Some well ->
  carried (server w) well NAMESPACE = a :: l ->
  exists w',
    annotate_record true record w = Returned tt w' /\
    annotations (server w') =
      map (update_kv (ma_id a) (payload record)) (annotations (server w)) /\
    In (set_kv (payload record) a) (carried (server w') well NAMESPACE) /\
    (forall b, In b (annotations (server w')) -> ma_id b = ma_id a ->
               ma_kv b = payload record) /\
    (forall well' ns,
        map_annotation_ids (server w') well' ns =
        map_annotation_ids (server w) well' ns) /\
    List.length (annotations (server w')) =
      List.length (annotations (server w)) /\
    trace w' =
      trace w ++
      [EPlateQuery pname; EGetWellId (pl_id p) (r - 1) (c - 1);
       EGetMapAnnotationIds well NAMESPACE;
       EWarning (msg_exists well);
       EWarning (msg_forcing (ma_id a) well);
       EPutMapAnnotation (ma_id a) (payload record)].
Proof.
  intros Ht Hn Hw Hc.
  rewrite (annotate_record_resolved _ _ _ _ _ _ _ _ Ht Hn Hw).
  rewrite annotate_well_run. cbn [log server trace]. rewrite Hc.
  eexists. split; [reflexivity|]. cbn [server trace].
  split; [reflexivity|]. split; [|split; [|split; [|split]]].
  - rewrite carried_updated, Hc. cbn [map]. rewrite update_kv_same. now left.
  - unfold updated, with_annotations. cbn [annotations].
    intros b Hb Hid. apply in_map_iff in Hb. destruct Hb as (b0 & <- & _).
    rewrite ma_id_update_kv in Hid. unfold update_kv.
    apply Z.eqb_eq in Hid. now rewrite Hid.
  - intros well' ns. apply map_annotation_ids_updated.
  - unfold updated, with_annotations. cbn [annotations]. apply length_map.
  - now rewrite <- app_assoc.
Qed.

Lemma annotate_record_force_overwrites_witness :
  exists w',
    annotate_record true plateA_record (world0 once_server) = Returned tt w' /\
    annotations (server w') = [mkMapAnn 5 40 NAMESPACE payload_XY].
Proof.
  destruct (annotate_record_force_overwrites plateA_record "PlateA" 1 1
              (mkPlate 7 "PlateA") 40
              (mkMapAnn 5 40 NAMESPACE payload_old) [] (world0 once_server))
    as (w' & Hrun & Hann & _).
  - repeat split; reflexivity.
  - reflexivity.
  - reflexivity.
  - reflexivity.
  - exists w'. split; [exact Hrun | exact Hann].
Defined.

(** C9.  With [--force], on a server whose annotation identifiers are
    unique, a typed row whose well carries one or more annotations under
    [NAMESPACE]: the only write is a put on the first identifier the query
    returns; afterwards the well carries the first annotation with the row's
    payload, followed by the other annotations it carried, unchanged, and
    every annotation of the store with another identifier is still there as
    it was. *)
Theorem force_updates_first_only (record : dict)
        (pname : string) (r c : Z) (p : Plate) (well : Z)
        (a : MapAnnotation) (l : list MapAnnotation) (w : World) :
  unique_ids (server w) ->
  typed_row record pname r c ->
  named (server w) pname = [p] ->
  well_at (server w) (pl_id p) (r - 1) (c - 1) = Some well ->
  carried (server w) well NAMESPACE = a :: l ->
  exists w' evs,
    annotate_record true record w = Returned tt w' /\
    hd_error (map_annotation_ids (server w) well NAMESPACE) = Some (ma_id a) /\
    trace w' = trace w ++ evs /\
    filter is_write evs = [EPutMapAnnotation (ma_id a) (payload record)] /\
    carried (server w') well NAMESPACE = set_kv (payload record) a :: l /\
    (forall b, In b (annotations (server w)) -> ma_id b <> ma_id a ->
               In b (annotations (server w'))).
Proof.
  intros Hu Ht Hn Hw Hc.
  rewrite (annotate_record_resolved _ _ _ _ _ _ _ _ Ht Hn Hw).
  rewrite annotate_well_run. cbn [log server trace]. rewrite Hc.
  eexists. eexists. split; [reflexivity|]. cbn [server trace].
  split; [|split; [|split; [|split]]].
  - unfold map_annotation_ids. fold (carried (server w) well NAMESPACE).
    now rewrite Hc.
  - rewrite <- app_assoc. reflexivity.
  - reflexivity.
  - rewrite carried_updated, Hc. cbn [map]. rewrite update_kv_same.
    f_equal. apply map_update_kv_others.
    exact (carried_others _ _ _ _ _ Hu Hc).
  - intros b Hb Hne. unfold updated, with_annotations. cbn [annotations].
    apply in_map_iff. exists b. split; [now apply update_kv_other | exact Hb].
Qed.

Lemma unique_ids_twice_server : unique_ids twice_server.
Proof.
  unfold unique_ids. cbn.
  repeat constructor; cbn; intuition discriminate.
Defined.

Lemma force_updates_first_only_witness :
  exists w',
    annotate_record true plateA_record (world0 twice_server) = Returned tt w' /\
    carried (server w') 40 NAMESPACE =
      [mkMapAnn 5 40 NAMESPACE payload_XY;
       mkMapAnn 8 40 NAMESPACE [("individual", VStr "V")]].
Proof.
  destruct (force_updates_first_only plateA_record "PlateA" 1 1
              (mkPlate 7 "PlateA") 40
              (mkMapAnn 5 40 NAMESPACE payload_old)
              [mkMapAnn 8 40 NAMESPACE [("individual", VStr "V")]]
              (world0 twice_server))
    as (w' & evs & Hrun & _ & _ & _ & Hcar & _).
  - exact unique_ids_twice_server.
  - repeat split; reflexivity.
  - reflexivity.
  - reflexivity.
  - reflexivity.
  - exists w'. split; [exact Hrun | exact Hcar].
Defined.

(** ** Plate resolution *)

Lemma named_In (s : Server) (pname : string) (p : Plate) :
  In p (named s pname) <-> In p (plates s) /\ pl_name p = pname.
Proof.
  unfold named. rewrite filter_In. now rewrite String.eqb_eq.
Qed.

(** C5.  [get_plate_id] asks the server once for the plates of that exact
    name.  It returns an identifier exactly when one stored plate has the
    name, and the identifier is that plate's; with no such plate it raises
    the error [No plate found with name <name>], with two or more
    [Multiple plates found with name <name>]. *)
Theorem get_plate_id_resolves (pname : string) (w : World) :
  (forall p, In p (named (server w) pname) <->
             In p (plates (server w)) /\ pl_name p = pname) /\
  (forall id w',
      get_plate_id pname w = Returned id w' <->
      w' = log w [EPlateQuery pname] /\
      exists p, named (server w) pname = [p] /\ pl_id p = id) /\
  (List.length (named (server w) pname) = 0%nat ->
   get_plate_id pname w =
   Raised (ValueError ("No plate found with name " ++ pname))
          (log w [EPlateQuery pname])) /\
  ((2 <= List.length (named (server w) pname))%nat ->
   get_plate_id pname w =
   Raised (ValueError ("Multiple plates found with name " ++ pname))
          (log w [EPlateQuery pname])).
Proof.
  split; [intros p; apply named_In|].
  rewrite get_plate_id_run.
  destruct (named (server w) pname) as [|p [|q l]]; cbn [List.length].
  - split; [|split; [reflexivity | lia]].
    intros id w'. split; [discriminate|].
    intros (_ & p & Hp & _). discriminate.
  - split; [|split; [discriminate | lia]].
    intros id w'. split.
    + intros H. inversion H; subst. split; [reflexivity|].
      exists p. now split.
    + intros (-> & p' & Hp & <-). now inversion Hp.
  - split; [|split; [discriminate | reflexivity]].
    intros id w'. split; [discriminate|].
    intros (_ & p' & Hp & _). discriminate.
Qed.

Lemma get_plate_id_resolves_witness :
  get_plate_id "PlateA" (world0 plateA_server) =
    Returned 7 (log (world0 plateA_server) [EPlateQuery "PlateA"]) /\
  get_plate_id "PlateB" (world0 plateA_server) =
    Raised (ValueError "No plate found with name PlateB")
           (log (world0 plateA_server) [EPlateQuery "PlateB"]).
Proof.
  split.
  - apply (proj1 (proj2 (get_plate_id_resolves "PlateA" (world0 plateA_server)))).
    split; [reflexivity|]. exists (mkPlate 7 "PlateA"). split; reflexivity.
  - apply (proj1 (proj2 (proj2
             (get_plate_id_resolves "PlateB" (world0 plateA_server))))).
    reflexivity.
Defined.

(** ** The well lookup *)

(** C6.  On a typed row with [row = r] and [column = c], every well lookup
    the loop body makes is at row index [r - 1] and column index [c - 1];
    and when the plate name is that of exactly one plate, the body makes
    exactly one well lookup, on that plate at these indices. *)
Theorem well_lookup_decrements (force : bool) (record : dict)
        (pname : string) (r c : Z) (w : World) :
  typed_row record pname r c ->
  exists evs,
    trace (world_of (annotate_record force record w)) = trace w ++ evs /\
    (forall plate ri ci,
        In (EGetWellId plate ri ci) evs -> ri = r - 1 /\ ci = c - 1) /\
    (forall p, named (server w) pname = [p] ->
               filter is_well_lookup evs =
               [EGetWellId (pl_id p) (r - 1) (c - 1)]).
Proof.
  intros Ht. rewrite (annotate_record_typed _ _ _ _ _ _ Ht), find_well_run.
  destruct (named (server w) pname) as [|p [|q l]] eqn:Hn;
    [exists [EPlateQuery pname]; cbn [world_of log trace];
     split; [reflexivity|]; split;
     [intros ? ? ? [H|[]]; discriminate | intros ?; discriminate]
    | | exists [EPlateQuery pname]; cbn [world_of log trace];
        split; [reflexivity|]; split;
        [intros ? ? ? [H|[]]; discriminate | intros ?; discriminate]].
  destruct (well_at (server w) (pl_id p) (r - 1) (c - 1)) as [well|].
  - rewrite annotate_well_run. cbn [log server trace].
    destruct (carried (server w) well NAMESPACE) as [|a la];
      [|destruct force]; eexists; cbn [world_of log trace server];
      (split; [rewrite <- app_assoc; reflexivity|]);
      (split;
       [intros plate ri ci Hin; cbn in Hin;
        repeat (destruct Hin as [Hin|Hin]; try discriminate);
        [now inversion Hin | contradiction]
       | intros p' Hp'; inversion Hp'; subst; reflexivity]).
  - eexists; cbn [world_of log trace server].
    split; [reflexivity|]. split.
    + intros plate ri ci Hin. cbn in Hin.
      repeat (destruct Hin as [Hin|Hin]; try discriminate);
        [now inversion Hin | contradiction].
    + intros p' Hp'. inversion Hp'; subst. reflexivity.
Qed.

Lemma well_lookup_decrements_witness :
  exists evs,
    trace (world_of (annotate_record false record35 (world0 plateA_server)))
    = trace (world0 plateA_server) ++ evs /\
    filter is_well_lookup evs = [EGetWellId 7 2 4].
Proof.
  destruct (well_lookup_decrements false record35 "PlateA" 3 5
              (world0 plateA_server)) as (evs & Htr & _ & Hone).
  - repeat split; reflexivity.
  - exists evs. split; [exact Htr|].
    exact (Hone (mkPlate 7 "PlateA") eq_refl).
Defined.

(** ** Missing columns *)

Lemma check_columns_missing (df : DataFrame) (cols : list string) (w : World) :
  (exists col, In col cols /\ ~ In col (columns df)) ->
  exists before col after,
    cols = before ++ col :: after /\
    (forall c, In c before -> In c (columns df)) /\
    ~ In col (columns df) /\
    for_each (check_column df) cols w =
    Raised (ValueError ("csv missing column " ++ col)) w.
Proof.
  induction cols as [|c cols IH]; intros (col & Hin & Hnin); [destruct Hin|].
  destruct (existsb (String.eqb c) (columns df)) eqn:E.
  - apply existsb_eqb_In in E.
    destruct IH as (before & col' & after & -> & Hb & Hn & Hrun).
    { exists col. split; [|assumption].
      destruct Hin as [->|Hin]; [contradiction | assumption]. }
    exists (c :: before), col', after. repeat split; try assumption.
    + intros c' [<-|Hc']; [assumption | now apply Hb].
    + cbn [for_each]. unfold bind.
      now rewrite (check_column_present _ _ _ E).
  - assert (~ In c (columns df)) as Hc.
    { intros Hc. apply existsb_eqb_In in Hc. congruence. }
    exists [], c, cols. repeat split; try assumption.
    + intros c' [].
    + cbn [for_each]. unfold bind.
      now rewrite (check_column_absent _ _ _ Hc).
Qed.

(** C7.  A table without one of the six columns of [DTYPES]: the run raises
    [csv missing column <col>], for the first column of [DTYPES] that the
    table lacks, right after connecting: the trace holds the connection
    only (no plate query, no well lookup, no row) and the server is as it
    was. *)
Theorem main_missing_column (df : DataFrame) (force : bool) (w : World) :
  (exists col, In col (keys DTYPES) /\ ~ In col (columns df)) ->
  exists before col after,
    keys DTYPES = before ++ col :: after /\
    (forall c, In c before -> In c (columns df)) /\
    ~ In col (columns df) /\
    main df force w =
    Raised (ValueError ("csv missing column " ++ col))
           (log w [EConnect OMERO_GROUP OMERO_SERVER 4064 true]).
Proof.
  intros Hmiss.
  destruct (check_columns_missing df (keys DTYPES)
              (log w [EConnect OMERO_GROUP OMERO_SERVER 4064 true]) Hmiss)
    as (before & col & after & Hk & Hb & Hn & Hrun).
  exists before, col, after. repeat split; try assumption.
  unfold main. unfold bind at 1. cbn [emit]. fold (log w [EConnect OMERO_GROUP OMERO_SERVER 4064 true]).
  unfold bind at 1. now rewrite Hrun.
Qed.

Lemma main_missing_column_witness :
  exists col,
    main (mkDataFrame ["plate_name"; "row"; "individual"; "compound"]
                      [[VStr "PlateA"; VInt 1; VStr "X"; VStr "Y"]])
         false (world0 plateA_server) =
    Raised (ValueError ("csv missing column " ++ col))
           (log (world0 plateA_server)
                [EConnect OMERO_GROUP OMERO_SERVER 4064 true]).
Proof.
  destruct (main_missing_column
              (mkDataFrame ["plate_name"; "row"; "individual"; "compound"]
                           [[VStr "PlateA"; VInt 1; VStr "X"; VStr "Y"]])
              false (world0 plateA_server))
    as (before & col & after & _ & _ & _ & Hrun).
  - exists "concentration". split.
    + cbn. tauto.
    + cbn. intros [H|[H|[H|[H|[]]]]]; discriminate.
  - exists col. exact Hrun.
Defined.

(** ** The loop over the rows *)

Lemma for_each_app {A} (body : A -> M unit) (l1 l2 : list A) (w : World) :
  for_each body (l1 ++ l2) w =
  match for_each body l1 w with
  | Returned _ w' => for_each body l2 w'
  | Raised e w' => Raised e w'
  end.
Proof.
  revert w. induction l1 as [|x l1 IH]; intros w; [reflexivity|].
  cbn [app for_each]. unfold bind.
  destruct (body x w) as [[] w'|e w']; [apply IH | reflexivity].
Qed.

Lemma for_each_cons {A} (body : A -> M unit) (x : A) (l : list A) (w : World) :
  for_each body (x :: l) w =
  match body x w with
  | Returned _ w' => for_each body l w'
  | Raised e w' => Raised e w'
  end.
Proof. reflexivity. Qed.

Lemma main_run (df : DataFrame) (force : bool) (w : World) :
  (forall col, In col (keys DTYPES) -> In col (columns df)) ->
  main df force w =
  match for_each (annotate_row df force) (rows df) (log w [connect_event]) with
  | Returned _ w' => Returned tt (log w' [EClose])
  | Raised e w' => Raised e w'
  end.
Proof.
  intros Hcols. unfold main. unfold bind at 1. cbn [emit].
  fold connect_event. fold (log w [connect_event]).
  unfold bind at 1. rewrite (check_columns_present _ _ _ Hcols).
  unfold bind. destruct (for_each _ (rows df) _) as [[] w'|e w']; reflexivity.
Qed.

(** C8.  The rows before a row have been processed and the row is typed.
    If its plate name is the name of no plate, or of two or more, or the
    plate has no well at (row - 1, column - 1), the run raises the error of
    that lookup, in the world where the lookup failed: whatever rows follow,
    nothing is done for them and the connection is not closed.  If instead
    the row is looked up and its well carries an annotation under
    [NAMESPACE], without [--force], the run goes on with the rows that
    follow. *)
Theorem lookup_failure_aborts_run (df : DataFrame) (force : bool)
        (before : list (list value)) (row : list value)
        (after : list (list value)) (pname : string) (r c : Z)
        (w w1 : World) :
  (forall col, In col (keys DTYPES) -> In col (columns df)) ->
  rows df = before ++ row :: after ->
  for_each (annotate_row df force) before (log w [connect_event])
  = Returned tt w1 ->
  typed_row (record_of df row) pname r c ->
  (named (server w1) pname = [] ->
   main df force w =
   Raised (ValueError (msg_no_plate pname)) (log w1 [EPlateQuery pname])) /\
  ((2 <= List.length (named (server w1) pname))%nat ->
   main df force w =
   Raised (ValueError (msg_multiple_plates pname))
          (log w1 [EPlateQuery pname])) /\
  (forall p, named (server w1) pname = [p] ->
             well_at (server w1) (pl_id p) (r - 1) (c - 1) = None ->
   main df force w =
   Raised (ValueError (msg_no_well (pl_id p) (r - 1) (c - 1)))
          (log w1 (lookup_events pname (pl_id p) (r - 1) (c - 1)))) /\
  (forall p well a l,
      named (server w1) pname = [p] ->
      well_at (server w1) (pl_id p) (r - 1) (c - 1) = Some well ->
      carried (server w1) well NAMESPACE = a :: l ->
      force = false ->
      main df force w =
      match for_each (annotate_row df force) after
              (log w1 (lookup_events pname (pl_id p) (r - 1) (c - 1)
                       ++ skip_events well)) with
      | Returned _ w' => Returned tt (log w' [EClose])
      | Raised e w' => Raised e w'
      end).
Proof.
  intros Hcols Hrows Hbefore Ht.
  rewrite (main_run _ _ _ Hcols), Hrows, for_each_app, Hbefore, for_each_cons.
  unfold annotate_row at 1 3 5 7.
  rewrite (annotate_record_typed _ _ _ _ _ _ Ht), find_well_run.
  split; [|split; [|split]].
  - intros Hn. now rewrite Hn.
  - intros Hlen. destruct (named (server w1) pname) as [|p [|q l]];
      cbn [List.length] in Hlen; try lia. reflexivity.
  - intros p Hn Hw. now rewrite Hn, Hw.
  - intros p well a l Hn Hw Hc ->. rewrite Hn, Hw, annotate_well_run.
    cbn [log server trace]. rewrite Hc. unfold log. cbn [server trace].
    now rewrite <- app_assoc.
Qed.

Lemma lookup_failure_aborts_run_witness :
  exists w1,
    for_each (annotate_row plateB_df false) [plateA_row]
             (log (world0 plateA_server) [connect_event]) = Returned tt w1 /\
    main plateB_df false (world0 plateA_server) =
    Raised (ValueError (msg_no_plate "PlateB")) (log w1 [EPlateQuery "PlateB"]).
Proof.
  eexists. split; [reflexivity|].
  apply (proj1 (lookup_failure_aborts_run plateB_df false
                  [plateA_row] rowB [row35] "PlateB" 1 1
                  (world0 plateA_server) _
                  (fun col H => H) eq_refl eq_refl
                  (conj eq_refl (conj eq_refl eq_refl)))).
  reflexivity.
Defined.

(** ** At most one annotation per well and namespace *)

Lemma at_most_one_posted (s : Server) (well : Z) (kv : dict) :
  at_most_one s -> carried s well NAMESPACE = [] ->
  at_most_one (posted s well kv).
Proof.
  intros Hone Hnone well' ns. rewrite carried_posted.
  destruct (on_well well' ns _) eqn:E.
  - unfold on_well in E. cbn [ma_well ma_ns] in E.
    apply andb_prop in E. destruct E as [Ew En].
    apply Z.eqb_eq in Ew. apply String.eqb_eq in En. subst well' ns.
    rewrite Hnone. cbn. lia.
  - rewrite app_nil_r. apply Hone.
Qed.

Lemma at_most_one_updated (s : Server) (ann : Z) (kv : dict) :
  at_most_one s -> at_most_one (updated s ann kv).
Proof.
  intros Hone well ns. rewrite carried_updated, length_map. apply Hone.
Qed.

(** What a run of the loop body does to the store. *)
Lemma row_step_server (force : bool) (record : dict) (w : World)
      (o : Outcome unit) :
  row_step force record w o ->
  server (world_of o) = server w \/
  (exists well a l,
      carried (server w) well NAMESPACE = a :: l /\ force = true /\
      server (world_of o) = updated (server w) (ma_id a) (payload record)) \/
  (exists well,
      carried (server w) well NAMESPACE = [] /\
      server (world_of o) = posted (server w) well (payload record)).
Proof.
  intros Hs. destruct Hs; cbn [world_of server log];
    try (left; reflexivity).
  - right. right. exists well. now split.
  - right. left. exists well, a, l. now repeat split.
Qed.

Lemma annotate_record_at_most_one (force : bool) (record : dict) (w : World) :
  at_most_one (server w) ->
  at_most_one (server (world_of (annotate_record force record w))).
Proof.
  intros Hone.
  destruct (row_step_server _ _ _ _ (annotate_record_step force record w))
    as [->|[(well & a & l & _ & _ & ->)|(well & Hc & ->)]].
  - exact Hone.
  - now apply at_most_one_updated.
  - now apply at_most_one_posted.
Qed.

Lemma for_each_rows_at_most_one (df : DataFrame) (force : bool)
      (l : list (list value)) (w : World) :
  at_most_one (server w) ->
  at_most_one (server (world_of (for_each (annotate_row df force) l w))).
Proof.
  revert w. induction l as [|row l IH]; intros w Hone; [exact Hone|].
  rewrite for_each_cons. unfold annotate_row at 1.
  pose proof (annotate_record_at_most_one force (record_of df row) w Hone) as H.
  destruct (annotate_record force (record_of df row) w) as [[] w'|e w'];
    cbn [world_of] in H; [now apply IH | exact H].
Qed.

Lemma check_columns_world (df : DataFrame) (cols : list string) (w : World) :
  world_of (for_each (check_column df) cols w) = w.
Proof.
  induction cols as [|c cols IH]; [reflexivity|].
  cbn [for_each]. unfold bind, check_column at 1.
  destruct (existsb (String.eqb c) (columns df)); cbn [negb];
    [exact IH | reflexivity].
Qed.

Lemma main_at_most_one (df : DataFrame) (force : bool) (w : World) :
  at_most_one (server w) ->
  at_most_one (server (world_of (main df force w))).
Proof.
  intros Hone. unfold main. unfold bind at 1. cbn [emit].
  fold connect_event. fold (log w [connect_event]).
  unfold bind at 1.
  pose proof (check_columns_world df (keys DTYPES) (log w [connect_event])) as Hw.
  destruct (for_each (check_column df) _ _) as [[] w0|e w0];
    cbn [world_of] in Hw; subst w0; [|exact Hone].
  unfold bind.
  pose proof (for_each_rows_at_most_one df force (rows df)
                (log w [connect_event]) Hone) as H.
  destruct (for_each (annotate_row df force) _ _) as [[] w'|e w'];
    cbn [world_of] in H |- *; exact H.
Qed.

(** C4.  From a store in which every (well, namespace) pair carries at most
    one map annotation, the loop body ends, whether it returns or raises, in
    such a store.  What it does to the store is one of: nothing; a put on
    the first annotation the well carries under [NAMESPACE], with [--force];
    a post on a well that carries no annotation under [NAMESPACE]. *)
Theorem annotate_record_keeps_at_most_one (force : bool) (record : dict)
        (w : World) :
  at_most_one (server w) ->
  at_most_one (server (world_of (annotate_record force record w))) /\
  (server (world_of (annotate_record force record w)) = server w \/
   (exists well a l,
       carried (server w) well NAMESPACE = a :: l /\ force = true /\
       server (world_of (annotate_record force record w)) =
       updated (server w) (ma_id a) (payload record)) \/
   (exists well,
       carried (server w) well NAMESPACE = [] /\
       server (world_of (annotate_record force record w)) =
       posted (server w) well (payload record))).
Proof.
  intros Hone. split.
  - now apply annotate_record_at_most_one.
  - apply row_step_server with (force := force) (record := record).
    apply annotate_record_step.
Qed.

Lemma at_most_one_once_server : at_most_one once_server.
Proof.
  intros well ns. unfold carried. cbn [once_server with_annotations annotations filter].
  destruct (on_well well ns _); cbn [List.length]; lia.
Defined.

Lemma annotate_record_keeps_at_most_one_witness :
  at_most_one
    (server (world_of (annotate_record true plateA_record (world0 once_server)))).
Proof.
  exact (proj1 (annotate_record_keeps_at_most_one true plateA_record
                  (world0 once_server) at_most_one_once_server)).
Defined.

(** ** Runs without [--force] *)

Lemma extends_refl (s : Server) : extends s s.
Proof. repeat split. exists []. now rewrite app_nil_r. Qed.

Lemma extends_trans (s1 s2 s3 : Server) :
  extends s1 s2 -> extends s2 s3 -> extends s1 s3.
Proof.
  intros (Hp1 & Hw1 & l1 & Ha1) (Hp2 & Hw2 & l2 & Ha2).
  repeat split; [congruence | congruence |].
  exists (l1 ++ l2). now rewrite Ha2, Ha1, app_assoc.
Qed.

Lemma extends_posted (s : Server) (well : Z) (kv : dict) :
  extends s (posted s well kv).
Proof. repeat split. eexists. reflexivity. Qed.

Lemma annotated_extends (s s' : Server) (record : dict) :
  annotated s record -> extends s s' -> annotated s' record.
Proof.
  intros (pname & r & c & p & well & Ht & Hn & Hw & Hc) (Hp & Hws & l & Ha).
  exists pname, r, c, p, well. repeat split; try apply Ht.
  - unfold named in *. now rewrite Hp.
  - unfold well_at in *. now rewrite Hws.
  - unfold carried in *. rewrite Ha, filter_app.
    intros H. apply app_eq_nil in H. now destruct H.
Qed.

(** A row the loop body returns on without [--force] is annotated
    afterwards, and the store has at most grown. *)
Lemma no_force_returned (record : dict) (w w' : World) :
  annotate_record false record w = Returned tt w' ->
  annotated (server w') record /\ extends (server w) (server w').
Proof.
  intros Hrun. pose proof (annotate_record_step false record w) as Hs.
  rewrite Hrun in Hs. inversion Hs; subst; cbn [server log].
  - split; [|apply extends_posted].
    apply annotated_extends with (s := posted (server w) well (payload record));
      [|apply extends_refl].
    exists pname, r, c, p, well. repeat split; try apply H0; try assumption.
    rewrite carried_posted, H3, on_well_self by reflexivity. discriminate.
  - discriminate.
  - split; [|apply extends_refl].
    exists pname, r, c, p, well. repeat split; try apply H0; try assumption.
    rewrite H3. discriminate.
Qed.

Lemma no_force_loop (df : DataFrame) (l : list (list value)) (w w' : World) :
  for_each (annotate_row df false) l w = Returned tt w' ->
  extends (server w) (server w') /\
  Forall (fun row => annotated (server w') (record_of df row)) l.
Proof.
  revert w. induction l as [|row l IH]; intros w Hrun.
  - inversion Hrun; subst. split; [apply extends_refl | constructor].
  - rewrite for_each_cons in Hrun. unfold annotate_row at 1 in Hrun.
    destruct (annotate_record false (record_of df row) w) as [[] w1|e w1] eqn:H1;
      [|discriminate].
    apply no_force_returned in H1. destruct H1 as [Hann Hext1].
    apply IH in Hrun. destruct Hrun as [Hext2 Hall].
    split; [now apply extends_trans with (s2 := server w1)|].
    constructor; [|exact Hall].
    now apply annotated_extends with (s := server w1).
Qed.

Lemma prefix_append (s t : string) : String.prefix s (s ++ t)%string = true.
Proof.
  induction s as [|ch s IH]; [now destruct t|].
  cbn [append String.prefix].
  destruct (ascii_dec ch ch); [exact IH | contradiction].
Qed.

Lemma skip_events_not_written (well : Z) :
  filter is_write (skip_events well) = [].
Proof. reflexivity. Qed.

Lemma skip_events_one_warning (well : Z) :
  filter is_skip_warning (skip_events well) = [EWarning (msg_skipping well)].
Proof.
  assert (String.prefix "Skipping MapAnnotation for well:" (msg_skipping well)
          = true) as Hs by apply prefix_append.
  assert (String.prefix "Skipping MapAnnotation for well:" (msg_exists well)
          = false) as He by reflexivity.
  unfold skip_events. cbn [filter is_skip_warning]. now rewrite Hs, He.
Qed.

(** On an annotated row the loop body without [--force] looks the row up,
    warns that it skips the row and returns. *)
Lemma no_force_skips (record : dict) (w : World) :
  annotated (server w) record ->
  exists evs,
    annotate_record false record w = Returned tt (log w evs) /\
    filter is_write evs = [] /\
    List.length (filter is_skip_warning evs) = 1%nat.
Proof.
  intros (pname & r & c & p & well & Ht & Hn & Hw & Hc).
  rewrite (annotate_record_looked_up _ _ _ _ _ _ _ _ Ht Hn Hw).
  rewrite annotate_well_run. cbn [log server trace].
  destruct (carried (server w) well NAMESPACE) as [|a l]; [contradiction|].
  rewrite log_log. eexists. split; [reflexivity|].
  rewrite !filter_app, skip_events_not_written, skip_events_one_warning.
  split; reflexivity.
Qed.

Lemma no_force_rerun (df : DataFrame) (l : list (list value)) (w : World) :
  Forall (fun row => annotated (server w) (record_of df row)) l ->
  exists evs,
    for_each (annotate_row df false) l w = Returned tt (log w evs) /\
    filter is_write evs = [] /\
    List.length (filter is_skip_warning evs) = List.length l.
Proof.
  revert w. induction l as [|row l IH]; intros w Hall.
  - exists []. split; [|split; reflexivity].
    unfold log. rewrite app_nil_r. now destruct w.
  - inversion Hall as [|? ? Hrow Hrest]; subst.
    destruct (no_force_skips _ _ Hrow) as (evs1 & Hrun1 & Hw1 & Hs1).
    rewrite for_each_cons. unfold annotate_row at 1. rewrite Hrun1.
    destruct (IH (log w evs1) Hrest) as (evs2 & Hrun2 & Hw2 & Hs2).
    exists (evs1 ++ evs2). rewrite Hrun2, log_log. split; [reflexivity|].
    rewrite !filter_app, Hw1, Hw2, length_app, Hs1, Hs2. split; reflexivity.
Qed.

Lemma main_returned (df : DataFrame) (force : bool) (w w1 : World) :
  main df force w = Returned tt w1 ->
  (forall col, In col (keys DTYPES) -> In col (columns df)) /\
  exists w', for_each (annotate_row df force) (rows df) (log w [connect_event])
             = Returned tt w' /\ w1 = log w' [EClose].
Proof.
  intros Hrun.
  assert (forall col, In col (keys DTYPES) -> In col (columns df)) as Hcols.
  { intros col Hin.
    destruct (existsb (String.eqb col) (columns df)) eqn:E;
      [now apply existsb_eqb_In in E|].
    exfalso.
    destruct (check_columns_missing df (keys DTYPES) (log w [connect_event]))
      as (before & col' & after & _ & _ & _ & Hchk).
    { exists col. split; [exact Hin|].
      intros Hc. apply existsb_eqb_In in Hc. congruence. }
    unfold main in Hrun. unfold bind at 1 in Hrun. cbn [emit] in Hrun.
    fold connect_event in Hrun. fold (log w [connect_event]) in Hrun.
    unfold bind at 1 in Hrun. rewrite Hchk in Hrun. discriminate. }
  split; [exact Hcols|].
  rewrite (main_run _ _ _ Hcols) in Hrun.
  destruct (for_each _ (rows df) _) as [[] w'|e w']; [|discriminate].
  exists w'. split; [reflexivity|]. now inversion Hrun.
Qed.

(** C2.  Without [--force]: (1) in the loop over the rows, on a typed row
    whose well is found and already carries an annotation under
    [NAMESPACE], the body makes its lookups, logs the two warnings (that an
    annotation exists, that the row is skipped), writes nothing, leaving the
    server as it was, and the loop goes on with the rows that follow;
    (2) after a run that returned, a second run on the same table from the
    store the first one left returns too, logs one skip warning per row,
    makes no post and no put, and leaves that store as it is, so that when
    each (well, namespace) pair carried at most one annotation before the
    first run, it does so after the second. *)
Theorem no_force_skips_and_rerun_is_idempotent (df : DataFrame) (w : World) :
  (forall row rest pname r c p well a l,
      typed_row (record_of df row) pname r c ->
      named (server w) pname = [p] ->
      well_at (server w) (pl_id p) (r - 1) (c - 1) = Some well ->
      carried (server w) well NAMESPACE = a :: l ->
      for_each (annotate_row df false) (row :: rest) w =
      for_each (annotate_row df false) rest
        (mkWorld (server w)
           (trace w ++
            [EPlateQuery pname; EGetWellId (pl_id p) (r - 1) (c - 1);
             EGetMapAnnotationIds well NAMESPACE;
             EWarning (msg_exists well);
             EWarning (msg_skipping well)]))) /\
  (forall w1 w2,
      main df false w = Returned tt w1 ->
      server w2 = server w1 ->
      exists evs,
        main df false w2 = Returned tt (mkWorld (server w1) (trace w2 ++ evs)) /\
        filter is_write evs = [] /\
        List.length (filter is_skip_warning evs) = List.length (rows df) /\
        (at_most_one (server w) -> at_most_one (server w1))).
Proof.
  split.
  - intros row rest pname r c p well a l Ht Hn Hw Hc.
    rewrite for_each_cons. unfold annotate_row at 1.
    rewrite (annotate_record_resolved _ _ _ _ _ _ _ _ Ht Hn Hw).
    rewrite annotate_well_run. cbn [log server trace]. rewrite Hc.
    unfold log. cbn [server trace]. now rewrite <- app_assoc.
  - intros w1 w2 Hrun Hsrv.
    pose proof (main_at_most_one df false w) as Hone. rewrite Hrun in Hone.
    cbn [world_of] in Hone.
    apply main_returned in Hrun. destruct Hrun as (Hcols & w' & Hloop & ->).
    apply no_force_loop in Hloop. destruct Hloop as [_ Hall].
    cbn [log server] in Hsrv.
    destruct (no_force_rerun df (rows df) (log w2 [connect_event]))
      as (evs & Hrun2 & Hw2 & Hs2).
    { cbn [log server]. now rewrite Hsrv. }
    exists (connect_event :: evs ++ [EClose]).
    rewrite (main_run _ _ _ Hcols), Hrun2.
    split; [|split; [|split]].
    + unfold log. cbn [server trace]. rewrite Hsrv.
      now rewrite <- !app_assoc.
    + cbn [filter is_write connect_event]. now rewrite filter_app, Hw2.
    + cbn [filter is_skip_warning connect_event].
      rewrite filter_app, length_app, Hs2. cbn. lia.
    + exact Hone.
Qed.

Lemma no_force_skips_and_rerun_is_idempotent_witness :
  main repeat_df false (world0 plateA_server) = Returned tt repeat_world /\
  exists evs,
    main repeat_df false repeat_world =
      Returned tt (mkWorld (server repeat_world) (trace repeat_world ++ evs)) /\
    filter is_write evs = [] /\
    List.length (filter is_skip_warning evs) = 3%nat.
Proof.
  assert (main repeat_df false (world0 plateA_server) = Returned tt repeat_world)
    as Hfirst by (vm_compute; reflexivity).
  split; [exact Hfirst|].
  destruct (proj2 (no_force_skips_and_rerun_is_idempotent
                     repeat_df (world0 plateA_server))
              repeat_world repeat_world Hfirst eq_refl)
    as (evs & Hrun & Hwr & Hskip & _).
  exists evs. split; [exact Hrun|]. split; [exact Hwr | exact Hskip].
Defined.

(** ** Runs on concrete tables *)

Example main_plateA :
  main plateA_df false (world0 plateA_server) =
  Returned tt
    (mkWorld
       (mkServer [mkPlate 7 "PlateA"] [mkWell 40 7 0 0; mkWell 41 7 2 4]
                 [mkMapAnn 1 40 NAMESPACE payload_XY])
       [EConnect OMERO_GROUP OMERO_SERVER 4064 true;
        EPlateQuery "PlateA"; EGetWellId 7 0 0;
        EGetMapAnnotationIds 40 NAMESPACE;
        EPostMapAnnotation 40 payload_XY NAMESPACE;
        EPrint "New MapAnnotation:1 posted to Well:40";
        EClose]).
Proof. vm_compute. reflexivity. Qed.

Example main_force_once :
  main plateA_df true (world0 once_server) =
  Returned tt
    (mkWorld
       (with_annotations plateA_server [mkMapAnn 5 40 NAMESPACE payload_XY])
       [connect_event;
        EPlateQuery "PlateA"; EGetWellId 7 0 0;
        EGetMapAnnotationIds 40 NAMESPACE;
        EWarning (msg_exists 40);
        EWarning "Forcing update of MapAnnotation:5 for well:40";
        EPutMapAnnotation 5 payload_XY;
        EClose]).
Proof. vm_compute. reflexivity. Qed.

Example main_no_force_once :
  main plateA_df false (world0 once_server) =
  Returned tt
    (mkWorld once_server
       [connect_event;
        EPlateQuery "PlateA"; EGetWellId 7 0 0;
        EGetMapAnnotationIds 40 NAMESPACE;
        EWarning (msg_exists 40);
        EWarning "Skipping MapAnnotation for well:40";
        EClose]).
Proof. vm_compute. reflexivity. Qed.

Example main_no_well :
  main (mkDataFrame six_columns
          [[VStr "PlateA"; VInt 2; VInt 9; VStr "X"; VFloat 0.5; VStr "Y"];
           plateA_row])
       false (world0 plateA_server) =
  Raised (ValueError "No well found at plate:7, row_index:1, col_index:8")
    (mkWorld plateA_server
       [connect_event; EPlateQuery "PlateA"; EGetWellId 7 1 8]).
Proof. vm_compute. reflexivity. Qed.

(** * Further properties of the script *)

(** ** What is left of a row after parsing *)

(** X1.  Parsing a typed row has no effect on the world and hands on the
    other fields of the row as they are: in the record that is left, the
    keys [plate_name], [row] and [column] are absent and every other key,
    among them any column beyond the six of [DTYPES], has the value it has
    in the row. *)
Theorem parse_record_keeps_other_fields (record : dict) (pname : string)
        (r c : Z) (w : World) :
  typed_row record pname r c ->
  exists rest,
    parse_record record w = Returned (pname, r - 1, c - 1, rest) w /\
    dict_get rest "plate_name" = None /\
    dict_get rest "row" = None /\
    dict_get rest "column" = None /\
    (forall k, k <> "plate_name" -> k <> "row" -> k <> "column" ->
               dict_get rest k = dict_get record k).
Proof.
  intros Ht. exists (payload record).
  split; [now apply parse_record_typed|].
  repeat split; try (rewrite payload_get; reflexivity).
  intros k H1 H2 H3. rewrite payload_get. cbn [existsb].
  destruct (String.eqb_spec k "plate_name"); [contradiction|].
  destruct (String.eqb_spec k "row"); [contradiction|].
  destruct (String.eqb_spec k "column"); [contradiction|].
  reflexivity.
Qed.

Lemma parse_record_keeps_other_fields_witness :
  exists rest,
    parse_record batch_record (world0 plateA_server) =
      Returned ("PlateA", 0, 0, rest) (world0 plateA_server) /\
    dict_get rest "batch" = Some (VStr "b7").
Proof.
  destruct (parse_record_keeps_other_fields batch_record "PlateA" 1 1
              (world0 plateA_server)) as (rest & Hrun & _ & _ & _ & Hk).
  - repeat split; reflexivity.
  - exists rest. split; [exact Hrun|].
    rewrite (Hk "batch"); [reflexivity | discriminate..].
Defined.

(** ** The events and the store of a run, row by row *)

Lemma count_app (f : Event -> bool) (l1 l2 : list Event) :
  count f (l1 ++ l2) = (count f l1 + count f l2)%nat.
Proof. unfold count. now rewrite filter_app, length_app. Qed.

(** The events of one run of the loop body. *)
Lemma row_step_trace (force : bool) (record : dict) (w : World)
      (o : Outcome unit) :
  row_step force record w o ->
  exists evs,
    trace (world_of o) = trace w ++ evs /\
    count is_close evs = 0%nat /\
    (force = false -> count is_put evs = 0%nat) /\
    (count is_write evs <= 1)%nat /\
    List.length (annotations (server (world_of o))) =
      (List.length (annotations (server w)) + count is_post evs)%nat /\
    (returned o = true ->
     count is_plate_query evs = 1%nat /\
     count is_well_lookup evs = 1%nat /\
     count is_annotation_query evs = 1%nat).
Proof.
  intros Hs. destruct Hs; cbn [world_of log server trace returned].
  - exists []. rewrite app_nil_r. cbn. repeat split; try lia; try discriminate.
  - eexists. split; [reflexivity|]. cbn. repeat split; try lia; try discriminate.
  - eexists. split; [reflexivity|]. cbn. repeat split; try lia; try discriminate.
  - eexists. split; [reflexivity|]. cbn. repeat split; try lia; try discriminate.
  - eexists. split; [reflexivity|].
    unfold posted, with_annotations. cbn [annotations]. rewrite length_app.
    cbn. repeat split; try lia; try discriminate.
  - eexists. split; [reflexivity|].
    unfold updated, with_annotations. cbn [annotations]. rewrite length_map.
    subst force. cbn. repeat split; try lia; try discriminate.
  - eexists. split; [reflexivity|]. cbn. repeat split; try lia; try discriminate.
Qed.

(** The events of the loop over the rows. *)
Lemma for_each_rows_trace (df : DataFrame) (force : bool)
      (l : list (list value)) (w : World) :
  exists evs,
    trace (world_of (for_each (annotate_row df force) l w)) = trace w ++ evs /\
    count is_close evs = 0%nat /\
    (force = false -> count is_put evs = 0%nat) /\
    (count is_write evs <= List.length l)%nat /\
    List.length (annotations (server (world_of
                   (for_each (annotate_row df force) l w)))) =
      (List.length (annotations (server w)) + count is_post evs)%nat /\
    (returned (for_each (annotate_row df force) l w) = true ->
     count is_plate_query evs = List.length l /\
     count is_well_lookup evs = List.length l /\
     count is_annotation_query evs = List.length l).
Proof.
  revert w. induction l as [|row l IH]; intros w.
  - exists []. cbn. rewrite app_nil_r. repeat split; lia.
  - rewrite for_each_cons.
    change (annotate_row df force row w)
      with (annotate_record force (record_of df row) w).
    destruct (row_step_trace _ _ _ _
                (annotate_record_step force (record_of df row) w))
      as (evs1 & Htr1 & Hcl1 & Hput1 & Hwr1 & Hlen1 & Hret1).
    destruct (annotate_record force (record_of df row) w) as [[] w1|e w1].
    + cbv beta iota. cbn [world_of returned] in *.
      destruct (IH w1) as (evs2 & Htr2 & Hcl2 & Hput2 & Hwr2 & Hlen2 & Hret2).
      exists (evs1 ++ evs2). rewrite Htr2, Htr1, <- app_assoc.
      rewrite !count_app, Hcl1, Hcl2, Hlen2, Hlen1.
      split; [reflexivity|]. split; [reflexivity|].
      split; [intros Hf; now rewrite Hput1, Hput2|].
      split; [cbn [List.length]; lia|]. split; [lia|].
      intros Hr. destruct (Hret1 eq_refl) as (-> & -> & ->).
      destruct (Hret2 Hr) as (-> & -> & ->). now cbn.
    + cbv beta iota. cbn [world_of returned] in *.
      exists evs1. split; [exact Htr1|]. split; [exact Hcl1|].
      split; [exact Hput1|]. split; [cbn [List.length]; lia|].
      split; [exact Hlen1 | discriminate].
Qed.

(** [main] before its loop: either the column check raises, or every
    column is there and the loop runs. *)
Lemma main_cases (df : DataFrame) (force : bool) (w : World) :
  (exists col,
      In col (keys DTYPES) /\ ~ In col (columns df) /\
      main df force w =
      Raised (ValueError ("csv missing column " ++ col))
             (log w [connect_event])) \/
  ((forall col, In col (keys DTYPES) -> In col (columns df)) /\
   main df force w =
   match for_each (annotate_row df force) (rows df) (log w [connect_event]) with
   | Returned _ w' => Returned tt (log w' [EClose])
   | Raised e w' => Raised e w'
   end).
Proof.
  destruct (forallb (fun col => existsb (String.eqb col) (columns df))
                    (keys DTYPES)) eqn:E.
  - right. rewrite forallb_forall in E.
    assert (forall col, In col (keys DTYPES) -> In col (columns df)) as Hcols
        by (intros col Hin; apply existsb_eqb_In; now apply E).
    split; [exact Hcols | now apply main_run].
  - left.
    assert (exists col, In col (keys DTYPES) /\ ~ In col (columns df)) as Hmiss.
    { induction (keys DTYPES) as [|c cols IH]; [discriminate|].
      cbn [forallb] in E. apply andb_false_iff in E. destruct E as [E|E].
      - exists c. split; [now left|]. intros Hc.
        apply existsb_eqb_In in Hc. congruence.
      - destruct (IH E) as (col & Hin & Hn). exists col. split; [now right|assumption]. }
    destruct (check_columns_missing df (keys DTYPES) (log w [connect_event]) Hmiss)
      as (before & col & after & Hk & _ & Hn & Hchk).
    exists col. split; [rewrite Hk; apply in_or_app; right; now left|].
    split; [exact Hn|].
    unfold main. unfold bind at 1. cbn [emit].
    fold connect_event. fold (log w [connect_event]).
    unfold bind at 1. now rewrite Hchk.
Qed.

(** The events of a run of [main]. *)
Lemma main_trace (df : DataFrame) (force : bool) (w : World) :
  exists evs,
    trace (world_of (main df force w)) = trace w ++ connect_event :: evs /\
    count is_close evs = (if returned (main df force w) then 1 else 0)%nat /\
    (force = false -> count is_put evs = 0%nat) /\
    (count is_write evs <= List.length (rows df))%nat /\
    List.length (annotations (server (world_of (main df force w)))) =
      (List.length (annotations (server w)) + count is_post evs)%nat /\
    (returned (main df force w) = true ->
     count is_plate_query evs = List.length (rows df) /\
     count is_well_lookup evs = List.length (rows df) /\
     count is_annotation_query evs = List.length (rows df)).
Proof.
  destruct (main_cases df force w) as [(col & _ & _ & ->)|(_ & ->)].
  - exists []. cbn [world_of log trace server returned]. cbn.
    repeat split; try lia; try discriminate.
  - destruct (for_each_rows_trace df force (rows df) (log w [connect_event]))
      as (evs & Htr & Hcl & Hput & Hwr & Hlen & Hret).
    destruct (for_each (annotate_row df force) (rows df) (log w [connect_event]))
      as [[] w'|e w']; cbn [world_of returned log trace server] in *.
    + exists (evs ++ [EClose]). rewrite Htr, <- !app_assoc.
      rewrite !count_app, Hcl. cbn [app].
      split; [reflexivity|]. split; [reflexivity|].
      split; [intros Hf; now rewrite (Hput Hf)|].
      split; [cbn; lia|]. split; [cbn; lia|].
      intros _. destruct (Hret eq_refl) as (-> & -> & ->). cbn. lia.
    + exists evs. rewrite Htr, <- app_assoc. cbn [app].
      repeat split; try assumption; try discriminate.
Qed.

(** ** The connection *)

(** X2.  Every run of [main] starts by connecting, and it closes the
    connection exactly when it returns: a run that raises, whether at the
    column check or at a row, ends with the connection left open. *)
Theorem main_closes_iff_returns (df : DataFrame) (force : bool) (w : World) :
  exists evs,
    trace (world_of (main df force w)) = trace w ++ connect_event :: evs /\
    count is_close evs =
      (if returned (main df force w) then 1 else 0)%nat.
Proof.
  destruct (main_trace df force w) as (evs & Htr & Hcl & _).
  exists evs. now split.
Qed.

(** ** The work of a run *)

(** X3.  A run of [main] makes at most one write (post or put) per data
    row, and the store gains exactly one annotation per post, so at most one
    per row; a run that returns has made exactly one plate query, one well
    lookup and one annotation query per data row: the plate is resolved anew
    for every row. *)
Theorem main_work_per_row (df : DataFrame) (force : bool) (w : World) :
  exists evs,
    trace (world_of (main df force w)) = trace w ++ connect_event :: evs /\
    (count is_write evs <= List.length (rows df))%nat /\
    (count is_post evs <= count is_write evs)%nat /\
    List.length (annotations (server (world_of (main df force w)))) =
      (List.length (annotations (server w)) + count is_post evs)%nat /\
    (returned (main df force w) = true ->
     count is_plate_query evs = List.length (rows df) /\
     count is_well_lookup evs = List.length (rows df) /\
     count is_annotation_query evs = List.length (rows df)).
Proof.
  destruct (main_trace df force w) as (evs & Htr & _ & _ & Hwr & Hlen & Hret).
  exists evs. repeat split; try assumption; try (now apply Hret).
  unfold count. clear. induction evs as [|e evs IH]; [constructor|].
  destruct e; cbn [filter is_post is_write List.length]; lia.
Qed.

Lemma main_work_per_row_witness :
  exists evs,
    trace (world_of (main repeat_df false (world0 plateA_server))) =
      trace (world0 plateA_server) ++ connect_event :: evs /\
    count is_plate_query evs = 3%nat.
Proof.
  destruct (main_work_per_row repeat_df false (world0 plateA_server))
    as (evs & Htr & _ & _ & _ & Hret).
  exists evs. split; [exact Htr|]. exact (proj1 (Hret eq_refl)).
Defined.

(** ** What a run does to the store *)

Section StoreRelation.

(** A relation between the store before and after that every run of the
    loop body satisfies holds for the loop and for [main], when it is
    reflexive and transitive. *)
Variable R : Server -> Server -> Prop.
Variable force : bool.
Hypothesis R_refl : forall s, R s s.
Hypothesis R_trans : forall s1 s2 s3, R s1 s2 -> R s2 s3 -> R s1 s3.
Hypothesis R_row :
  forall record w,
    R (server w) (server (world_of (annotate_record force record w))).

Lemma for_each_rows_rel (df : DataFrame) (l : list (list value)) (w : World) :
  R (server w) (server (world_of (for_each (annotate_row df force) l w))).
Proof.
  revert w. induction l as [|row l IH]; intros w; [apply R_refl|].
  rewrite for_each_cons.
  change (annotate_row df force row w)
    with (annotate_record force (record_of df row) w).
  pose proof (R_row (record_of df row) w) as Hrow.
  destruct (annotate_record force (record_of df row) w) as [[] w1|e w1];
    cbn [world_of] in Hrow; [|exact Hrow].
  apply R_trans with (s2 := server w1); [exact Hrow | apply IH].
Qed.

Lemma main_rel (df : DataFrame) (w : World) :
  R (server w) (server (world_of (main df force w))).
Proof.
  destruct (main_cases df force w) as [(col & _ & _ & ->)|(_ & ->)];
    [apply R_refl|].
  pose proof (for_each_rows_rel df (rows df) (log w [connect_event])) as H.
  destruct (for_each (annotate_row df force) (rows df) (log w [connect_event]))
    as [[] w'|e w']; exact H.
Qed.

End StoreRelation.

Lemma skeleton_update_kv (ann : Z) (kv : dict) (l : list MapAnnotation) :
  map skeleton (map (update_kv ann kv) l) = map skeleton l.
Proof.
  rewrite map_map. apply map_ext. intros a. unfold update_kv, skeleton.
  now destruct (ma_id a =? ann).
Qed.

Lemma grows_refl (s : Server) : grows s s.
Proof. repeat split. exists []. now rewrite app_nil_r. Qed.

Lemma grows_trans (s1 s2 s3 : Server) :
  grows s1 s2 -> grows s2 s3 -> grows s1 s3.
Proof.
  intros (Hp1 & Hw1 & l1 & Ha1) (Hp2 & Hw2 & l2 & Ha2).
  repeat split; [congruence | congruence |].
  exists (l1 ++ l2). now rewrite Ha2, Ha1, app_assoc.
Qed.

Lemma annotate_record_grows (force : bool) (record : dict) (w : World) :
  grows (server w) (server (world_of (annotate_record force record w))).
Proof.
  destruct (row_step_server _ _ _ _ (annotate_record_step force record w))
    as [->|[(well & a & l & _ & _ & ->)|(well & _ & ->)]].
  - apply grows_refl.
  - repeat split. exists []. unfold updated, with_annotations.
    cbn [annotations]. now rewrite skeleton_update_kv, app_nil_r.
  - repeat split. eexists. unfold posted, with_annotations.
    cbn [annotations]. now rewrite map_app.
Qed.

(** X4.  A run of [main], with or without [--force], returning or raising,
    leaves the plates and the wells of the store as they are, removes no
    annotation and changes of no annotation the identifier, the well or the
    namespace: the annotations afterwards are, in these three respects, the
    previous ones in their order, followed by the posted ones. *)
Theorem main_grows_store (df : DataFrame) (force : bool) (w : World) :
  grows (server w) (server (world_of (main df force w))).
Proof.
  apply main_rel.
  - apply grows_refl.
  - apply grows_trans.
  - apply annotate_record_grows.
Qed.

Lemma posts_only_refl (s : Server) : posts_only s s.
Proof.
  repeat split. exists []. split; [now rewrite app_nil_r | constructor].
Qed.

Lemma posts_only_trans (s1 s2 s3 : Server) :
  posts_only s1 s2 -> posts_only s2 s3 -> posts_only s1 s3.
Proof.
  intros (Hp1 & Hw1 & l1 & Ha1 & Hn1) (Hp2 & Hw2 & l2 & Ha2 & Hn2).
  repeat split; [congruence | congruence |].
  exists (l1 ++ l2). split; [now rewrite Ha2, Ha1, app_assoc|].
  apply Forall_app. now split.
Qed.

Lemma annotate_record_posts_only (record : dict) (w : World) :
  posts_only (server w) (server (world_of (annotate_record false record w))).
Proof.
  destruct (row_step_server _ _ _ _ (annotate_record_step false record w))
    as [->|[(well & a & l & _ & Hf & _)|(well & _ & ->)]].
  - apply posts_only_refl.
  - discriminate.
  - repeat split. eexists. split; [reflexivity|].
    constructor; [reflexivity | constructor].
Qed.

(** X5.  A run of [main] without [--force], returning or raising, makes no
    put and leaves every annotation of the store as it was: the annotations
    afterwards are the previous ones, unchanged and in their order,
    followed by the posted ones, which are all under [NAMESPACE]. *)
Theorem main_no_force_posts_only (df : DataFrame) (w : World) :
  posts_only (server w) (server (world_of (main df false w))) /\
  exists evs,
    trace (world_of (main df false w)) = trace w ++ connect_event :: evs /\
    count is_put evs = 0%nat.
Proof.
  split.
  - apply main_rel.
    + apply posts_only_refl.
    + apply posts_only_trans.
    + apply annotate_record_posts_only.
  - destruct (main_trace df false w) as (evs & Htr & _ & Hput & _).
    exists evs. split; [exact Htr | now apply Hput].
Qed.

(** ** Annotations under other namespaces *)

Lemma unique_ids_inj (s : Server) (a b : MapAnnotation) :
  unique_ids s -> In a (annotations s) -> In b (annotations s) ->
  ma_id a = ma_id b -> a = b.
Proof.
  unfold unique_ids. induction (annotations s) as [|x l IH];
    intros Hnd Ha Hb Heq; [destruct Ha|].
  cbn [map] in Hnd. inversion Hnd as [|? ? Hnin Hnd']; subst.
  destruct Ha as [->|Ha], Hb as [->|Hb].
  - reflexivity.
  - exfalso. apply Hnin. rewrite Heq. now apply in_map.
  - exfalso. apply Hnin. rewrite <- Heq. now apply in_map.
  - now apply IH.
Qed.

Lemma carried_In (s : Server) (well : Z) (ns : string) (a : MapAnnotation) :
  In a (carried s well ns) <->
  In a (annotations s) /\ ma_well a = well /\ ma_ns a = ns.
Proof.
  unfold carried, on_well. rewrite filter_In, andb_true_iff.
  now rewrite Z.eqb_eq, String.eqb_eq.
Qed.

Lemma unique_ids_updated (s : Server) (ann : Z) (kv : dict) :
  unique_ids s -> unique_ids (updated s ann kv).
Proof.
  unfold unique_ids, updated, with_annotations. cbn [annotations].
  rewrite map_map. intros Hnd.
  erewrite map_ext; [exact Hnd|]. intros a. apply ma_id_update_kv.
Qed.

Lemma unique_ids_posted (s : Server) (well : Z) (kv : dict) :
  unique_ids s -> unique_ids (posted s well kv).
Proof.
  unfold unique_ids, posted, with_annotations. cbn [annotations].
  intros Hnd. rewrite map_app. cbn [map ma_id].
  apply NoDup_rev in Hnd. rewrite <- (rev_involutive (_ ++ _)).
  apply NoDup_rev. rewrite rev_app_distr. cbn [rev app].
  constructor; [|exact Hnd].
  rewrite <- in_rev. apply fresh_id_new.
Qed.

Lemma annotate_record_frames (force : bool) (record : dict) (w : World) :
  frames_other_namespaces
    (server w) (server (world_of (annotate_record force record w))).
Proof.
  intros Hu.
  destruct (row_step_server _ _ _ _ (annotate_record_step force record w))
    as [->|[(well0 & a & l & Hc & _ & ->)|(well0 & _ & ->)]].
  - now split.
  - split; [now apply unique_ids_updated|].
    intros well ns Hns. rewrite carried_updated.
    apply map_update_kv_others. intros b Hb Heq.
    assert (In a (carried (server w) well0 NAMESPACE)) as Ha
        by (rewrite Hc; now left).
    apply carried_In in Ha. destruct Ha as (Ha & _ & Hna).
    apply carried_In in Hb. destruct Hb as (Hb & _ & Hnb).
    pose proof (unique_ids_inj _ _ _ Hu Hb Ha Heq) as ->. congruence.
  - split; [now apply unique_ids_posted|].
    intros well ns Hns. rewrite carried_posted.
    unfold on_well. cbn [ma_well ma_ns].
    destruct (String.eqb_spec NAMESPACE ns) as [E|E]; [congruence|].
    now rewrite andb_false_r, app_nil_r.
Qed.

(** X6.  On a store whose annotation identifiers are unique, a run of
    [main], with or without [--force], returning or raising, leaves what
    every well carries under every namespace other than [NAMESPACE] exactly
    as it was, and the identifiers are unique afterwards. *)
Theorem main_frames_other_namespaces (df : DataFrame) (force : bool)
        (w : World) :
  unique_ids (server w) ->
  unique_ids (server (world_of (main df force w))) /\
  forall well ns,
    ns <> NAMESPACE ->
    carried (server (world_of (main df force w))) well ns =
    carried (server w) well ns.
Proof.
  apply (main_rel frames_other_namespaces force).
  - intros s Hu. now split.
  - intros s1 s2 s3 H12 H23 Hu1.
    destruct (H12 Hu1) as [Hu2 Hc2]. destruct (H23 Hu2) as [Hu3 Hc3].
    split; [exact Hu3|]. intros well ns Hns.
    now rewrite Hc3, Hc2.
  - apply annotate_record_frames.
Qed.

Lemma main_frames_other_namespaces_witness :
  carried (server (world_of (main repeat_df true (world0 twice_server))))
          40 "other/ns"
  = [mkMapAnn 6 40 "other/ns" payload_old].
Proof.
  exact (proj2 (main_frames_other_namespaces repeat_df true
                  (world0 twice_server) unique_ids_twice_server)
               40 "other/ns" ltac:(discriminate)).
Defined.

(** ** Annotations are posted once *)

Lemma carried_nonempty_skeleton (s s' : Server) (well : Z) (ns : string) :
  (exists l, map skeleton (annotations s') = map skeleton (annotations s) ++ l) ->
  carried s well ns <> [] -> carried s' well ns <> [].
Proof.
  intros (l & Hsk) Hc.
  destruct (carried s well ns) as [|a la] eqn:Ha; [contradiction|].
  assert (In a (carried s well ns)) as Hin by (rewrite Ha; now left).
  apply carried_In in Hin. destruct Hin as (Hin & Hw & Hn).
  assert (In (skeleton a) (map skeleton (annotations s'))) as Hsk'.
  { rewrite Hsk. apply in_or_app. left. now apply in_map. }
  apply in_map_iff in Hsk'. destruct Hsk' as (a' & Heq & Hin').
  assert (In a' (carried s' well ns)) as Hc'.
  { apply carried_In. unfold skeleton in Heq. inversion Heq. repeat split;
      [exact Hin' | congruence | congruence]. }
  intros Hnil. rewrite Hnil in Hc'. destruct Hc'.
Qed.

Lemma annotated_grows (s s' : Server) (record : dict) :
  annotated s record -> grows s s' -> annotated s' record.
Proof.
  intros (pname & r & c & p & well & Ht & Hn & Hw & Hc) (Hp & Hws & Hsk).
  exists pname, r, c, p, well. repeat split; try apply Ht.
  - unfold named in *. now rewrite Hp.
  - unfold well_at in *. now rewrite Hws.
  - now apply (carried_nonempty_skeleton s s').
Qed.

(** A row the loop body returns on is annotated afterwards. *)
Lemma returned_annotated (force : bool) (record : dict) (w w' : World) :
  annotate_record force record w = Returned tt w' ->
  annotated (server w') record.
Proof.
  intros Hrun. pose proof (annotate_record_step force record w) as Hs.
  rewrite Hrun in Hs. inversion Hs; subst; cbn [server log].
  - exists pname, r, c, p, well. repeat split; try apply H0; try assumption.
    rewrite carried_posted, H3, on_well_self by reflexivity. discriminate.
  - exists pname, r, c, p, well. repeat split; try apply H0; try assumption.
    rewrite carried_updated, H3. discriminate.
  - exists pname, r, c, p, well. repeat split; try apply H0; try assumption.
    rewrite H3. discriminate.
Qed.

Lemma returned_loop_annotated (df : DataFrame) (force : bool)
      (l : list (list value)) (w w' : World) :
  for_each (annotate_row df force) l w = Returned tt w' ->
  Forall (fun row => annotated (server w') (record_of df row)) l.
Proof.
  revert w. induction l as [|row l IH]; intros w Hrun; [constructor|].
  rewrite for_each_cons in Hrun.
  change (annotate_row df force row w)
    with (annotate_record force (record_of df row) w) in Hrun.
  destruct (annotate_record force (record_of df row) w) as [[] w1|e w1] eqn:H1;
    [|discriminate].
  constructor; [|now apply (IH w1)].
  apply annotated_grows with (s := server w1);
    [now apply (returned_annotated force _ w)|].
  pose proof (for_each_rows_rel grows force grows_refl grows_trans
                (annotate_record_grows force) df l w1) as Hg.
  now rewrite Hrun in Hg.
Qed.

(** On an annotated row the loop body returns without a post. *)
Lemma annotated_no_post (force : bool) (record : dict) (w : World) :
  annotated (server w) record ->
  exists w' evs,
    annotate_record force record w = Returned tt w' /\
    trace w' = trace w ++ evs /\
    count is_post evs = 0%nat /\
    map skeleton (annotations (server w')) =
    map skeleton (annotations (server w)).
Proof.
  intros (pname & r & c & p & well & Ht & Hn & Hw & Hc).
  rewrite (annotate_record_looked_up _ _ _ _ _ _ _ _ Ht Hn Hw).
  rewrite annotate_well_run. cbn [log server trace].
  destruct (carried (server w) well NAMESPACE) as [|a l]; [contradiction|].
  destruct force; eexists; eexists; (split; [reflexivity|]);
    cbn [log server trace]; rewrite <- app_assoc;
    (split; [reflexivity|]); (split; [reflexivity|]).
  - unfold updated, with_annotations. cbn [annotations].
    apply skeleton_update_kv.
  - reflexivity.
Qed.

Lemma annotated_loop_no_post (df : DataFrame) (force : bool)
      (l : list (list value)) (w : World) :
  Forall (fun row => annotated (server w) (record_of df row)) l ->
  exists w' evs,
    for_each (annotate_row df force) l w = Returned tt w' /\
    trace w' = trace w ++ evs /\
    count is_post evs = 0%nat /\
    map skeleton (annotations (server w')) =
    map skeleton (annotations (server w)).
Proof.
  revert w. induction l as [|row l IH]; intros w Hall.
  - exists w, []. rewrite app_nil_r. repeat split.
  - inversion Hall as [|? ? Hrow Hrest]; subst.
    destruct (annotated_no_post force _ _ Hrow)
      as (w1 & evs1 & Hrun1 & Htr1 & Hp1 & Hsk1).
    rewrite for_each_cons.
    change (annotate_row df force row w)
      with (annotate_record force (record_of df row) w).
    rewrite Hrun1.
    assert (grows (server w) (server w1)) as Hg.
    { pose proof (annotate_record_grows force (record_of df row) w) as Hg.
      now rewrite Hrun1 in Hg. }
    destruct (IH w1) as (w2 & evs2 & Hrun2 & Htr2 & Hp2 & Hsk2).
    { eapply Forall_impl; [|exact Hrest].
      intros row' Hr'. now apply annotated_grows with (s := server w). }
    exists w2, (evs1 ++ evs2). split; [exact Hrun2|].
    split; [now rewrite Htr2, Htr1, app_assoc|].
    split; [now rewrite count_app, Hp1, Hp2 | congruence].
Qed.

(** X7.  After a run of [main] that returned, with or without [--force], a
    further run on the same table from the store the first one left, again
    with or without [--force], returns and posts nothing: the store has the
    same annotations afterwards, by identifier, well and namespace. *)
Theorem main_posts_once (df : DataFrame) (force1 force2 : bool)
        (w w1 w2 : World) :
  main df force1 w = Returned tt w1 ->
  server w2 = server w1 ->
  exists w3 evs,
    main df force2 w2 = Returned tt w3 /\
    trace w3 = trace w2 ++ evs /\
    count is_post evs = 0%nat /\
    map skeleton (annotations (server w3)) =
    map skeleton (annotations (server w1)).
Proof.
  intros Hrun Hsrv.
  apply main_returned in Hrun. destruct Hrun as (Hcols & w' & Hloop & ->).
  apply returned_loop_annotated in Hloop. cbn [log server] in Hsrv.
  destruct (annotated_loop_no_post df force2 (rows df) (log w2 [connect_event]))
    as (w3 & evs & Hrun2 & Htr & Hp & Hsk).
  { cbn [log server]. now rewrite Hsrv. }
  exists (log w3 [EClose]), (connect_event :: evs ++ [EClose]).
  rewrite (main_run _ _ _ Hcols), Hrun2. split; [reflexivity|].
  cbn [log server trace] in *. rewrite Htr, Hsk, Hsrv.
  split; [now rewrite <- !app_assoc|]. split; [|reflexivity].
  change (connect_event :: evs ++ [EClose])
    with ([connect_event] ++ evs ++ [EClose]).
  now rewrite !count_app, Hp.
Qed.

Lemma main_posts_once_witness :
  exists w3 evs,
    main repeat_df true repeat_world = Returned tt w3 /\
    trace w3 = trace repeat_world ++ evs /\
    count is_post evs = 0%nat.
Proof.
  destruct (main_posts_once repeat_df false true (world0 plateA_server)
              repeat_world repeat_world)
    as (w3 & evs & Hrun & Htr & Hp & _).
  - vm_compute. reflexivity.
  - reflexivity.
  - exists w3, evs. split; [exact Hrun|]. split; [exact Htr | exact Hp].
Defined.

(** ** Two rows for one well *)

(** X8.  Two rows of the table for the same well, the well carrying no
    annotation under [NAMESPACE]: the loop returns on both, the first row
    posts one annotation and the second posts none; without [--force] the
    annotation keeps the payload of the first row (the second row is
    skipped), with [--force] it ends with the payload of the second. *)
Theorem duplicate_rows_first_or_last (df : DataFrame) (force : bool)
        (row1 row2 : list value) (pname : string) (r c : Z)
        (p : Plate) (well : Z) (w : World) :
  typed_row (record_of df row1) pname r c ->
  typed_row (record_of df row2) pname r c ->
  named (server w) pname = [p] ->
  well_at (server w) (pl_id p) (r - 1) (c - 1) = Some well ->
  carried (server w) well NAMESPACE = [] ->
  exists w',
    for_each (annotate_row df force) [row1; row2] w = Returned tt w' /\
    annotations (server w') =
      annotations (server w) ++
      [mkMapAnn (fresh_id (server w)) well NAMESPACE
         (payload (record_of df (if force then row2 else row1)))].
Proof.
  intros Ht1 Ht2 Hn Hw Hc.
  rewrite for_each_cons.
  change (annotate_row df force row1 w)
    with (annotate_record force (record_of df row1) w).
  rewrite (annotate_record_resolved _ _ _ _ _ _ _ _ Ht1 Hn Hw).
  rewrite annotate_well_run. cbn [log server trace]. rewrite Hc.
  rewrite for_each_cons.
  match goal with
  | |- context [annotate_row df force row2 ?w1] =>
      change (annotate_row df force row2 w1)
        with (annotate_record force (record_of df row2) w1);
      assert (carried (server w1) well NAMESPACE =
              [mkMapAnn (fresh_id (server w)) well NAMESPACE
                        (payload (record_of df row1))]) as Hc1
          by (cbn [server]; rewrite carried_posted, Hc;
              now rewrite on_well_self);
      rewrite (annotate_record_resolved force _ _ _ _ p well w1 Ht2 Hn Hw)
  end.
  rewrite annotate_well_run. cbn [log server trace] in *. rewrite Hc1.
  destruct force; cbn [for_each ret]; eexists; (split; [reflexivity|]);
    cbn [server].
  - unfold updated, posted, with_annotations. cbn [annotations].
    rewrite map_app. cbn [map]. rewrite update_kv_same.
    f_equal. apply map_update_kv_others. intros b Hb Heq.
    cbn [ma_id] in Heq. apply fresh_id_above in Hb. lia.
  - reflexivity.
Qed.

Lemma duplicate_rows_first_or_last_witness :
  exists w',
    for_each (annotate_row plateA_df true) [plateA_row2; plateA_row]
             (world0 plateA_server) = Returned tt w' /\
    annotations (server w') = [mkMapAnn 1 40 NAMESPACE payload_XY].
Proof.
  destruct (duplicate_rows_first_or_last plateA_df true plateA_row2 plateA_row
              "PlateA" 1 1 (mkPlate 7 "PlateA") 40 (world0 plateA_server))
    as (w' & Hrun & Hann).
  - repeat split; reflexivity.
  - repeat split; reflexivity.
  - reflexivity.
  - reflexivity.
  - reflexivity.
  - exists w'. split; [exact Hrun | exact Hann].
Defined.

(** ** Where the writes go *)

Lemma well_at_sound (s : Server) (plate ri ci well : Z) :
  well_at s plate ri ci = Some well ->
  exists wl, In wl (wells s) /\ w_id wl = well /\ w_plate wl = plate /\
             w_row wl = ri /\ w_column wl = ci.
Proof.
  unfold well_at.
  destruct (filter _ (wells s)) as [|wl l] eqn:Hf; [discriminate|].
  intros H. inversion H; subst. exists wl.
  assert (In wl (wl :: l)) as Hin by now left.
  rewrite <- Hf in Hin. apply filter_In in Hin. destruct Hin as [Hin Hb].
  apply andb_prop in Hb. destruct Hb as [Hb Hc].
  apply andb_prop in Hb. destruct Hb as [Hp Hr].
  apply Z.eqb_eq in Hp, Hr, Hc. now repeat split.
Qed.

Lemma resolved_well_of (s : Server) (pname : string) (p : Plate)
      (ri ci well : Z) :
  named s pname = [p] -> well_at s (pl_id p) ri ci = Some well ->
  well_of s well pname ri ci.
Proof.
  intros Hn Hw. apply well_at_sound in Hw.
  destruct Hw as (wl & Hin & Hid & Hp & Hr & Hc).
  assert (In p (named s pname)) as Hp' by (rewrite Hn; now left).
  apply named_In in Hp'. destruct Hp' as [Hpin Hpn].
  exists p, wl. now repeat split.
Qed.

(** X9.  On a typed row, every post of the loop body is under [NAMESPACE],
    with the row's payload, on a well of the store that lies on a plate of
    the row's name at (row - 1, column - 1); every put is made with
    [--force] only, with the row's payload, on an annotation of the store
    under [NAMESPACE] whose well is such a well. *)
Theorem writes_target_row_well (force : bool) (record : dict)
        (pname : string) (r c : Z) (w : World) :
  typed_row record pname r c ->
  exists evs,
    trace (world_of (annotate_record force record w)) = trace w ++ evs /\
    (forall well kv ns,
        In (EPostMapAnnotation well kv ns) evs ->
        ns = NAMESPACE /\ kv = payload record /\
        well_of (server w) well pname (r - 1) (c - 1)) /\
    (forall ann kv,
        In (EPutMapAnnotation ann kv) evs ->
        force = true /\ kv = payload record /\
        exists a, In a (annotations (server w)) /\ ma_id a = ann /\
                  ma_ns a = NAMESPACE /\
                  well_of (server w) (ma_well a) pname (r - 1) (c - 1)).
Proof.
  intros Ht. rewrite (annotate_record_typed _ _ _ _ _ _ Ht), find_well_run.
  assert (forall evs : list Event,
             (forall e, In e evs -> is_write e = false) ->
             (forall well kv ns, In (EPostMapAnnotation well kv ns) evs ->
                ns = NAMESPACE /\ kv = payload record /\
                well_of (server w) well pname (r - 1) (c - 1)) /\
             (forall ann kv, In (EPutMapAnnotation ann kv) evs ->
                force = true /\ kv = payload record /\
                exists a, In a (annotations (server w)) /\ ma_id a = ann /\
                          ma_ns a = NAMESPACE /\
                          well_of (server w) (ma_well a) pname (r - 1) (c - 1)))
    as Hnone.
  { intros evs Hno. split.
    - intros well kv ns Hin. apply Hno in Hin. discriminate.
    - intros ann kv Hin. apply Hno in Hin. discriminate. }
  destruct (named (server w) pname) as [|p [|q l]] eqn:Hn.
  - exists [EPlateQuery pname]. split; [reflexivity|]. apply Hnone.
    intros e [<-|[]]. reflexivity.
  - destruct (well_at (server w) (pl_id p) (r - 1) (c - 1)) as [well|] eqn:Hw.
    + pose proof (resolved_well_of _ _ _ _ _ _ Hn Hw) as Hwell.
      rewrite annotate_well_run. cbn [log server trace].
      destruct (carried (server w) well NAMESPACE) as [|a la] eqn:Hc;
        [|destruct force]; eexists; cbn [world_of log trace server];
        (split; [rewrite <- app_assoc; reflexivity|]).
      * split.
        -- intros well' kv ns Hin. cbn in Hin.
           repeat (destruct Hin as [Hin|Hin]; try discriminate);
             [|contradiction].
           inversion Hin; subst. now repeat split.
        -- intros ann kv Hin. cbn in Hin.
           repeat (destruct Hin as [Hin|Hin]; try discriminate).
           contradiction.
      * split.
        -- intros well' kv ns Hin. cbn in Hin.
           repeat (destruct Hin as [Hin|Hin]; try discriminate).
           contradiction.
        -- intros ann kv Hin. cbn in Hin.
           repeat (destruct Hin as [Hin|Hin]; try discriminate);
             [|contradiction].
           inversion Hin; subst. split; [reflexivity|]. split; [reflexivity|].
           assert (In a (carried (server w) well NAMESPACE)) as Ha
               by (rewrite Hc; now left).
           apply carried_In in Ha. destruct Ha as (Ha & Hwa & Hna).
           exists a. rewrite Hwa. now repeat split.
      * apply Hnone. intros e Hin. cbn in Hin.
        repeat (destruct Hin as [<-|Hin]; [reflexivity|]). contradiction.
    + eexists. split; [reflexivity|]. apply Hnone.
      intros e Hin. cbn in Hin.
      repeat (destruct Hin as [<-|Hin]; [reflexivity|]). contradiction.
  - exists [EPlateQuery pname]. split; [reflexivity|]. apply Hnone.
    intros e [<-|[]]. reflexivity.
Qed.

Lemma writes_target_row_well_witness :
  exists evs,
    trace (world_of (annotate_record false record35 (world0 plateA_server)))
    = trace (world0 plateA_server) ++ evs /\
    (forall well kv ns,
        In (EPostMapAnnotation well kv ns) evs ->
        well_of plateA_server well "PlateA" 2 4).
Proof.
  destruct (writes_target_row_well false record35 "PlateA" 3 5
              (world0 plateA_server)) as (evs & Htr & Hpost & _).
  - repeat split; reflexivity.
  - exists evs. split; [exact Htr|].
    intros well kv ns Hin. exact (proj2 (proj2 (Hpost well kv ns Hin))).
Defined.

(** ** The column check and the pops *)

Lemma dict_get_set (d : dict) (k k' : string) (v : value) :
  dict_get (dict_set d k v) k' =
  if String.eqb k k' then Some v else dict_get d k'.
Proof.
  induction d as [|[k0 v0] d IH]; [reflexivity|].
  cbn [dict_set]. destruct (String.eqb_spec k0 k) as [->|Hne];
    cbn [dict_get].
  - now destruct (String.eqb k k').
  - rewrite IH. destruct (String.eqb_spec k0 k') as [->|Hne'];
      [|reflexivity].
    destruct (String.eqb_spec k k'); [congruence | reflexivity].
Qed.

Lemma fold_dict_set_has_key (items : list (string * value)) (d : dict)
      (k : string) :
  dict_get d k <> None \/ In k (map fst items) ->
  dict_get (fold_left (fun d kv => dict_set d (fst kv) (snd kv)) items d) k
  <> None.
Proof.
  revert d. induction items as [|[k0 v0] items IH]; intros d H.
  - destruct H as [H|[]]. exact H.
  - cbn [fold_left fst snd]. apply IH. cbn [map fst] in H.
    rewrite dict_get_set. destruct (String.eqb_spec k0 k) as [->|Hne].
    + left. discriminate.
    + destruct H as [H|[H|H]]; [now left | contradiction | now right].
Qed.

Lemma record_of_has_column (df : DataFrame) (row : list value) (k : string) :
  In k (columns df) -> List.length row = List.length (columns df) ->
  dict_get (record_of df row) k <> None.
Proof.
  intros Hin Hlen. unfold record_of, dict_of_items.
  apply fold_dict_set_has_key. right.
  fold (keys (combine (columns df) row)). now rewrite keys_combine.
Qed.

Lemma parse_record_key_error (record : dict) (w w' : World) (k : string) :
  parse_record record w = Raised (KeyError k) w' ->
  dict_get record "plate_name" = None \/
  dict_get record "row" = None \/
  dict_get record "column" = None.
Proof.
  unfold parse_record, dict_pop.
  destruct (dict_get record "plate_name") as [v1|] eqn:Hp; [|now left].
  run. unfold as_str.
  destruct (plate_name_of v1) as [s|]; run; [|discriminate].
  rewrite dict_get_remove_other by discriminate.
  destruct (dict_get record "row") as [v2|] eqn:Hr; [|now (right; left)].
  run. destruct v2 as [|r|]; cbn [minus_one]; run; try discriminate.
  rewrite !dict_get_remove_other by discriminate.
  destruct (dict_get record "column") as [v3|] eqn:Hc; [|now (right; right)].
  run. destruct v3 as [|c|]; cbn [minus_one]; run; discriminate.
Qed.

Lemma annotate_record_no_key_error (force : bool) (record : dict)
      (w w' : World) (k : string) :
  dict_get record "plate_name" <> None ->
  dict_get record "row" <> None ->
  dict_get record "column" <> None ->
  annotate_record force record w <> Raised (KeyError k) w'.
Proof.
  intros Hp Hr Hc Hrun.
  pose proof (annotate_record_step force record w) as Hs.
  rewrite Hrun in Hs. inversion Hs; subst.
  match goal with
  | H : parse_record _ _ = Raised (KeyError _) _ |- _ =>
      apply parse_record_key_error in H; destruct H as [H|[H|H]]; contradiction
  end.
Qed.

(** X10.  On a table whose data rows have a cell for every column, [main]
    never ends with a [KeyError]: once the column check has passed, the
    three pops of the loop body find their keys in every row, so that a
    missing column is only ever reported by the check itself. *)
Theorem main_never_key_error (df : DataFrame) (force : bool) (w : World) :
  full_rows df ->
  forall k w', main df force w <> Raised (KeyError k) w'.
Proof.
  intros Hfull k w'.
  destruct (main_cases df force w) as [(col & _ & _ & ->)|(Hcols & ->)];
    [discriminate|].
  assert (forall l w0,
             Forall (fun row => List.length row = List.length (columns df)) l ->
             for_each (annotate_row df force) l w0 <> Raised (KeyError k) w')
    as Hloop.
  { induction l as [|row l IH]; intros w0 Hall; [discriminate|].
    inversion Hall as [|? ? Hrow Hrest]; subst.
    rewrite for_each_cons.
    change (annotate_row df force row w0)
      with (annotate_record force (record_of df row) w0).
    destruct (annotate_record force (record_of df row) w0) as [[] w1|e w1] eqn:H1.
    - now apply IH.
    - intros Heq. inversion Heq; subst.
      revert H1. apply annotate_record_no_key_error;
        apply record_of_has_column; try assumption;
        apply Hcols; cbn; tauto. }
  specialize (Hloop (rows df) (log w [connect_event]) Hfull).
  destruct (for_each (annotate_row df force) (rows df) (log w [connect_event]))
    as [[] w1|e w1]; [discriminate|].
  intros Heq. inversion Heq; subst. now apply Hloop.
Qed.

Lemma main_never_key_error_witness :
  main plateB_df false (world0 plateA_server)
  <> Raised (KeyError "row") (world0 plateA_server).
Proof.
  apply (main_never_key_error plateB_df false (world0 plateA_server)).
  repeat constructor.
Defined.

(** ** The errors of a run *)

Lemma annotate_record_typed_error (force : bool) (record : dict)
      (pname : string) (r c : Z) (w w' : World) (e : Exn) :
  typed_row record pname r c ->
  annotate_record force record w = Raised e w' ->
  script_error e.
Proof.
  intros Ht Hrun. rewrite (annotate_record_typed _ _ _ _ _ _ Ht) in Hrun.
  rewrite find_well_run in Hrun.
  destruct (named (server w) pname) as [|p [|q l]].
  - inversion Hrun; subst. right. left. now exists pname.
  - destruct (well_at (server w) (pl_id p) (r - 1) (c - 1)) as [well|].
    + rewrite annotate_well_run in Hrun.
      destruct (carried _ well NAMESPACE); [discriminate|].
      destruct force; discriminate.
    + inversion Hrun; subst. right. right. right. now eexists _, _, _.
  - inversion Hrun; subst. right. right. left. now exists pname.
Qed.

(** X11.  On a table whose rows are typed, every error [main] ends with is
    a [ValueError] with one of four messages: a missing column of [DTYPES],
    no plate of the row's name, several plates of that name, no well at the
    row's position; in particular no put ever fails for want of the
    annotation it is made on. *)
Theorem main_errors (df : DataFrame) (force : bool) (w w' : World) (e : Exn) :
  typed_rows df ->
  main df force w = Raised e w' ->
  script_error e.
Proof.
  intros Hty Hrun.
  destruct (main_cases df force w) as [(col & Hin & _ & Heq)|(_ & Heq)];
    rewrite Heq in Hrun.
  - inversion Hrun; subst. left. now exists col.
  - clear Heq. unfold typed_rows in Hty.
    revert Hrun. generalize (log w [connect_event]).
    induction (rows df) as [|row l IH]; intros w0 Hrun; [discriminate|].
    inversion Hty as [|? ? (pname & r & c & Ht) Hrest]; subst.
    rewrite for_each_cons in Hrun.
    change (annotate_row df force row w0)
      with (annotate_record force (record_of df row) w0) in Hrun.
    destruct (annotate_record force (record_of df row) w0) as [[] w1|e1 w1] eqn:H1.
    + now apply (IH Hrest w1).
    + inversion Hrun; subst.
      exact (annotate_record_typed_error force _ pname r c w0 w' e Ht H1).
Qed.

Lemma main_errors_witness :
  script_error (ValueError (msg_no_plate "PlateB")).
Proof.
  apply (main_errors plateB_df false (world0 plateA_server)
           (world_of (main plateB_df false (world0 plateA_server)))).
  - repeat constructor; eexists _, _, _; repeat split; reflexivity.
  - vm_compute. reflexivity.
Defined.

(** ** Runs with [--force], repeated *)

Lemma apply_ops_app (ops1 ops2 : list (Z * dict)) (a : MapAnnotation) :
  apply_ops (ops1 ++ ops2) a = apply_ops ops2 (apply_ops ops1 a).
Proof. unfold apply_ops. apply fold_left_app. Qed.

Lemma skeleton_update (ann : Z) (kv : dict) (a : MapAnnotation) :
  skeleton (update_kv ann kv a) = skeleton a.
Proof. unfold update_kv, skeleton. now destruct (ma_id a =? ann). Qed.

Lemma skeleton_apply_ops (ops : list (Z * dict)) (a : MapAnnotation) :
  skeleton (apply_ops ops a) = skeleton a.
Proof.
  revert a. induction ops as [|op ops IH]; intros a; [reflexivity|].
  unfold apply_ops in *. cbn [fold_left]. now rewrite IH, skeleton_update.
Qed.

(** A put on what has the identifier, well and namespace of an annotation
    gives that annotation with the key-value pairs of the put. *)
Lemma update_kv_skeleton (ann : Z) (kv : dict) (x a : MapAnnotation) :
  skeleton x = skeleton a -> ma_id a = ann ->
  update_kv ann kv x = set_kv kv a.
Proof.
  unfold skeleton. intros Hsk Hid. inversion Hsk as [[H1 H2 H3]].
  unfold update_kv, set_kv. rewrite H1, H2, H3, Hid, Z.eqb_refl. reflexivity.
Qed.

Lemma on_well_skeleton (well : Z) (ns : string) (a b : MapAnnotation) :
  skeleton a = skeleton b -> on_well well ns a = on_well well ns b.
Proof.
  unfold skeleton, on_well. intros H. inversion H. congruence.
Qed.

Lemma first_carried_skeleton (well : Z) (ns : string)
      (L L' : list MapAnnotation) (l : list (Z * Z * string))
      (a : MapAnnotation) (la : list MapAnnotation) :
  map skeleton L' = map skeleton L ++ l ->
  filter (on_well well ns) L = a :: la ->
  exists a' la', filter (on_well well ns) L' = a' :: la' /\ ma_id a' = ma_id a.
Proof.
  revert L'. induction L as [|x L IH]; intros L' Hsk Hf; [discriminate|].
  destruct L' as [|x' L']; [discriminate|].
  cbn [map app] in Hsk.
  assert (skeleton x' = skeleton x) as Hx by congruence.
  assert (map skeleton L' = map skeleton L ++ l) as Hrest by congruence.
  cbn [filter] in *. rewrite (on_well_skeleton well ns x' x Hx).
  destruct (on_well well ns x).
  - inversion Hf; subst. exists x', (filter (on_well well ns) L').
    split; [reflexivity|]. unfold skeleton in Hx. now inversion Hx.
  - now apply IH.
Qed.

Lemma writes_to_grows (s s' : Server) (record : dict) (ann : Z) :
  writes_to s record ann -> grows s s' -> writes_to s' record ann.
Proof.
  intros (pname & r & c & p & well & a & l & Ht & Hn & Hw & Hc & Hid)
         (Hp & Hws & l' & Hsk).
  destruct (first_carried_skeleton well NAMESPACE _ _ _ _ _ Hsk Hc)
    as (a' & la' & Hc' & Hid').
  exists pname, r, c, p, well, a', la'. repeat split; try apply Ht.
  - unfold named in *. now rewrite Hp.
  - unfold well_at in *. now rewrite Hws.
  - exact Hc'.
  - congruence.
Qed.

(** A run of the loop body with [--force] that returns has written to the
    first annotation of the row's well, and the puts so far, made again,
    leave the store as it is. *)
Lemma force_returned_settled (record : dict) (w w' : World) :
  annotate_record true record w = Returned tt w' ->
  exists ann,
    writes_to (server w') record ann /\
    forall ops, settled ops (server w) ->
                settled (ops ++ [(ann, payload record)]) (server w').
Proof.
  intros Hrun. pose proof (annotate_record_step true record w) as Hs.
  rewrite Hrun in Hs. inversion Hs; subst; cbn [server log].
  - exists (fresh_id (server w)). split.
    + exists pname, r, c, p, well,
        (mkMapAnn (fresh_id (server w)) well NAMESPACE (payload record)), [].
      repeat split; try apply H0; try assumption.
      rewrite carried_posted, H3, on_well_self by reflexivity. reflexivity.
    + intros ops Hset a Hin. rewrite apply_ops_app.
      unfold apply_ops at 1. cbn [fold_left fst snd].
      unfold posted, with_annotations in Hin. cbn [annotations] in Hin.
      apply in_app_or in Hin. destruct Hin as [Hin|[<-|[]]].
      * rewrite (Hset a Hin). apply update_kv_other.
        apply fresh_id_above in Hin. lia.
      * exact (update_kv_skeleton (fresh_id (server w)) (payload record) _
                 (mkMapAnn (fresh_id (server w)) well NAMESPACE (payload record))
                 (skeleton_apply_ops ops _) eq_refl).
  - exists (ma_id a). split.
    + exists pname, r, c, p, well,
        (update_kv (ma_id a) (payload record) a),
        (map (update_kv (ma_id a) (payload record)) l).
      repeat split; try apply H0; try assumption.
      * rewrite carried_updated, H3. cbn [map]. reflexivity.
      * apply ma_id_update_kv.
    + intros ops Hset b Hin. rewrite apply_ops_app.
      unfold apply_ops at 1. cbn [fold_left fst snd].
      unfold updated, with_annotations in Hin. cbn [annotations] in Hin.
      apply in_map_iff in Hin. destruct Hin as (b0 & <- & Hin0).
      destruct (Z.eq_dec (ma_id b0) (ma_id a)) as [E|E].
      * rewrite (update_kv_skeleton (ma_id a) (payload record) _ b0);
          [| now rewrite skeleton_apply_ops, skeleton_update | exact E].
        unfold update_kv. apply Z.eqb_eq in E. now rewrite E.
      * rewrite (update_kv_other _ _ b0 E), (Hset b0 Hin0).
        now apply update_kv_other.
  - discriminate.
Qed.

Lemma puts_of_grows (df : DataFrame) (s s' : Server)
      (l : list (list value)) (ops : list (Z * dict)) :
  puts_of df s l ops -> grows s s' -> puts_of df s' l ops.
Proof.
  intros Hp Hg. induction Hp as [|row op l ops [Hw Hkv] _ IH]; constructor.
  - split; [now apply writes_to_grows with (s := s) | exact Hkv].
  - exact IH.
Qed.

Lemma force_loop_settled (df : DataFrame) (l : list (list value))
      (w w' : World) (ops0 : list (Z * dict)) :
  settled ops0 (server w) ->
  for_each (annotate_row df true) l w = Returned tt w' ->
  exists ops,
    puts_of df (server w') l ops /\ settled (ops0 ++ ops) (server w').
Proof.
  revert w ops0. induction l as [|row l IH]; intros w ops0 Hset Hrun.
  - inversion Hrun; subst. exists []. split; [constructor|].
    now rewrite app_nil_r.
  - rewrite for_each_cons in Hrun.
    change (annotate_row df true row w)
      with (annotate_record true (record_of df row) w) in Hrun.
    destruct (annotate_record true (record_of df row) w) as [[] w1|e w1] eqn:H1;
      [|discriminate].
    destruct (force_returned_settled _ _ _ H1) as (ann & Hw & Hset1).
    destruct (IH w1 _ (Hset1 ops0 Hset) Hrun) as (ops & Hp & Hset').
    exists ((ann, payload (record_of df row)) :: ops). split.
    + constructor; [|exact Hp]. split; [|reflexivity].
      apply writes_to_grows with (s := server w1); [exact Hw|].
      pose proof (for_each_rows_rel grows true grows_refl grows_trans
                    (annotate_record_grows true) df l w1) as Hg.
      now rewrite Hrun in Hg.
    + now rewrite <- app_assoc in Hset'.
Qed.

Lemma force_loop_puts (df : DataFrame) (l : list (list value))
      (ops : list (Z * dict)) (w : World) :
  puts_of df (server w) l ops ->
  exists w',
    for_each (annotate_row df true) l w = Returned tt w' /\
    plates (server w') = plates (server w) /\
    wells (server w') = wells (server w) /\
    annotations (server w') = map (apply_ops ops) (annotations (server w)).
Proof.
  revert ops w. induction l as [|row l IH]; intros ops w Hp.
  - inversion Hp; subst. exists w. repeat split.
    unfold apply_ops. cbn [fold_left]. now rewrite map_id.
  - inversion Hp as [|? op ? ops' [Hw Hkv] Hrest]; subst.
    destruct Hw as (pname & r & c & p & well & a & la & Ht & Hn & Hwl & Hc & Hid).
    rewrite for_each_cons.
    change (annotate_row df true row w)
      with (annotate_record true (record_of df row) w).
    rewrite (annotate_record_looked_up _ _ _ _ _ _ _ _ Ht Hn Hwl).
    rewrite annotate_well_run. cbn [log server trace]. rewrite Hc.
    match goal with
    | |- context [for_each _ l ?w1] =>
        destruct (IH ops' w1) as (w' & Hrun & Hpl & Hws & Hann)
    end.
    { cbn [server]. apply puts_of_grows with (s := server w); [exact Hrest|].
      repeat split. exists []. unfold updated, with_annotations.
      cbn [annotations]. now rewrite skeleton_update_kv, app_nil_r. }
    exists w'. split; [exact Hrun|]. cbn [server] in *.
    split; [exact Hpl|]. split; [exact Hws|].
    rewrite Hann. unfold updated, with_annotations. cbn [annotations].
    rewrite map_map. apply map_ext. intros b.
    unfold apply_ops. cbn [fold_left]. now rewrite Hid, Hkv.
Qed.

(** X12.  After a run of [main] with [--force] that returned, a second run
    with [--force] on the same table from the store the first one left
    returns and leaves that store exactly as it is: every put of the second
    run writes what the annotation already holds at the end. *)
Theorem main_force_is_idempotent (df : DataFrame) (w w1 w2 : World) :
  main df true w = Returned tt w1 ->
  server w2 = server w1 ->
  exists w3, main df true w2 = Returned tt w3 /\ server w3 = server w1.
Proof.
  intros Hrun Hsrv.
  apply main_returned in Hrun. destruct Hrun as (Hcols & w' & Hloop & ->).
  cbn [log server] in Hsrv.
  destruct (force_loop_settled df (rows df) (log w [connect_event]) w' [])
    as (ops & Hp & Hset); [intros a _; reflexivity | exact Hloop |].
  cbn [app] in Hset.
  destruct (force_loop_puts df (rows df) ops (log w2 [connect_event]))
    as (w3 & Hrun2 & Hpl & Hws & Hann).
  { cbn [log server]. now rewrite Hsrv. }
  exists (log w3 [EClose]). rewrite (main_run _ _ _ Hcols), Hrun2.
  split; [reflexivity|]. cbn [log server] in *.
  rewrite Hsrv in Hpl, Hws, Hann.
  assert (annotations (server w3) = annotations (server w')) as Hann'.
  { rewrite Hann. rewrite <- (map_id (annotations (server w'))) at 2.
    apply map_ext_in. exact Hset. }
  destruct (server w3), (server w'). cbn in *. congruence.
Qed.

Lemma main_force_is_idempotent_witness :
  exists w3,
    main repeat_df true
         (world_of (main repeat_df true (world0 once_server)))
    = Returned tt w3 /\
    server w3 = server (world_of (main repeat_df true (world0 once_server))).
Proof.
  apply (main_force_is_idempotent repeat_df (world0 once_server)
           (world_of (main repeat_df true (world0 once_server)))
           (world_of (main repeat_df true (world0 once_server)))).
  - vm_compute. reflexivity.
  - reflexivity.
Defined.

(** ** The store after a run that returned *)

(** X13.  When [main] returns, with or without [--force], every data row of
    the table has been looked up: the text of its plate name cell (the
    string of the cell, [nan] for an empty cell) is the name of exactly one
    plate, its row and column cells are integers, the plate has a well at
    (row - 1, column - 1), and that well carries an annotation under
    [NAMESPACE] in the store the run leaves. *)
Theorem main_returned_all_annotated (df : DataFrame) (force : bool)
        (w w' : World) :
  main df force w = Returned tt w' ->
  Forall (fun row => annotated (server w') (record_of df row)) (rows df).
Proof.
  intros Hrun. apply main_returned in Hrun.
  destruct Hrun as (_ & w1 & Hloop & ->).
  exact (returned_loop_annotated _ _ _ _ _ Hloop).
Qed.

Lemma main_returned_all_annotated_witness :
  Forall (fun row =>
            annotated (server (world_of (main nan_df false (world0 nan_server))))
                      (record_of nan_df row))
         [plateA_row; nan_row].
Proof.
  apply (main_returned_all_annotated nan_df false (world0 nan_server)).
  vm_compute. reflexivity.
Defined.

Lemma parsed_row_functional (record : dict) (pname pname' : string)
      (r r' c c' : Z) :
  parsed_row record pname r c -> parsed_row record pname' r' c' ->
  pname' = pname /\ r' = r /\ c' = c.
Proof.
  intros ((v & H1 & Hv) & H2 & H3) ((v' & H1' & Hv') & H2' & H3').
  rewrite H1 in H1'. rewrite H2 in H2'. rewrite H3 in H3'.
  inversion H1'; subst v'. inversion H2'. inversion H3'.
  rewrite Hv in Hv'. inversion Hv'. now repeat split.
Qed.

Lemma writes_to_functional (s : Server) (record : dict) (ann ann' : Z) :
  writes_to s record ann -> writes_to s record ann' -> ann' = ann.
Proof.
  intros (pname & r & c & p & well & a & l & Ht & Hn & Hw & Hc & Hid)
         (pname' & r' & c' & p' & well' & a' & l' & Ht' & Hn' & Hw' & Hc' & Hid').
  destruct (parsed_row_functional _ _ _ _ _ _ _ Ht Ht') as (-> & -> & ->).
  rewrite Hn in Hn'. inversion Hn'; subst p'.
  rewrite Hw in Hw'. inversion Hw'; subst well'.
  rewrite Hc in Hc'. inversion Hc'; subst. reflexivity.
Qed.

Lemma apply_ops_others (ops : list (Z * dict)) (a : MapAnnotation) :
  Forall (fun op => fst op <> ma_id a) ops -> apply_ops ops a = a.
Proof.
  intros Hall. induction Hall as [|op ops Hne _ IH]; [reflexivity|].
  unfold apply_ops in *. cbn [fold_left].
  rewrite update_kv_other by congruence. exact IH.
Qed.

Lemma puts_of_others (df : DataFrame) (s : Server) (l : list (list value))
      (ops : list (Z * dict)) (ann : Z) :
  puts_of df s l ops ->
  (forall row, In row l -> ~ writes_to s (record_of df row) ann) ->
  Forall (fun op => fst op <> ann) ops.
Proof.
  intros Hp. induction Hp as [|row op l ops [Hw _] _ IH]; intros Hno;
    constructor.
  - intros Heq. apply (Hno row); [now left|]. now rewrite <- Heq.
  - apply IH. intros row' Hin. apply Hno. now right.
Qed.

(** X14.  A run of [main] with [--force] that returned: for a row of the
    table that writes to an annotation (the first one its well carries under
    [NAMESPACE]) to which no later row of the table writes, the annotation
    holds the row's payload in the store the run leaves: the last row for a
    well wins.  A row with an empty plate name cell counts as a row of the
    plate named [nan]. *)
Theorem main_force_last_row_wins (df : DataFrame)
        (before : list (list value)) (row : list value)
        (after : list (list value)) (ann : Z) (w w' : World) :
  main df true w = Returned tt w' ->
  rows df = before ++ row :: after ->
  writes_to (server w') (record_of df row) ann ->
  (forall row', In row' after ->
                ~ writes_to (server w') (record_of df row') ann) ->
  forall a, In a (annotations (server w')) -> ma_id a = ann ->
            ma_kv a = payload (record_of df row).
Proof.
  intros Hrun Hrows Hw Hlater a Hin Hid.
  apply main_returned in Hrun. destruct Hrun as (_ & w1 & Hloop & ->).
  cbn [log server] in *.
  destruct (force_loop_settled df (rows df) (log w [connect_event]) w1 [])
    as (ops & Hp & Hset); [intros b _; reflexivity | exact Hloop |].
  cbn [app] in Hset. unfold puts_of in Hp. rewrite Hrows in Hp.
  apply Forall2_app_inv_l in Hp.
  destruct Hp as (ops_b & ops' & _ & Hp' & ->).
  inversion Hp' as [|? op ? ops_a [Hwop Hkv] Hpa]; subst.
  pose proof (writes_to_functional _ _ _ _ Hw Hwop) as Hop.
  assert (Forall (fun op' => fst op' <> ma_id a) ops_a) as Hothers.
  { apply (puts_of_others df (server w1) after); [exact Hpa|].
    exact Hlater. }
  rewrite <- (Hset a Hin). rewrite apply_ops_app.
  unfold apply_ops at 1. cbn [fold_left].
  fold (apply_ops ops_a (update_kv (fst op) (snd op) (apply_ops ops_b a))).
  rewrite (update_kv_skeleton (fst op) (snd op) _ a);
    [| apply skeleton_apply_ops | congruence].
  rewrite apply_ops_others; [now rewrite Hkv|].
  exact Hothers.
Qed.

Lemma main_force_last_row_wins_witness :
  Forall (fun a => ma_id a = 1 -> ma_kv a = payload_XY)
         (annotations
            (server (world_of (main two_df true (world0 plateA_server))))).
Proof.
  apply Forall_forall.
  apply (main_force_last_row_wins two_df [plateA_row2] plateA_row [] 1
           (world0 plateA_server)
           (world_of (main two_df true (world0 plateA_server)))).
  - vm_compute. reflexivity.
  - reflexivity.
  - exists "PlateA", 1, 1, (mkPlate 7 "PlateA"), 40,
      (mkMapAnn 1 40 NAMESPACE payload_XY), [].
    split; [|repeat split; reflexivity].
    apply typed_row_parsed. repeat split; reflexivity.
  - intros row' [].
Defined.

Lemma no_force_carried_stable (record : dict) (well : Z) (ns : string)
      (w : World) :
  carried (server w) well ns <> [] ->
  carried (server (world_of (annotate_record false record w))) well ns =
  carried (server w) well ns.
Proof.
  intros Hc.
  destruct (row_step_server _ _ _ _ (annotate_record_step false record w))
    as [->|[(well0 & a & l & _ & Hf & _)|(well0 & Hc0 & ->)]].
  - reflexivity.
  - discriminate.
  - rewrite carried_posted.
    destruct (on_well well ns _) eqn:E; [|apply app_nil_r].
    unfold on_well in E. cbn [ma_well ma_ns] in E.
    apply andb_prop in E. destruct E as [Ew En].
    apply Z.eqb_eq in Ew. apply String.eqb_eq in En. subst well0 ns.
    contradiction.
Qed.

Lemma no_force_loop_carried_stable (df : DataFrame) (l : list (list value))
      (well : Z) (ns : string) (w : World) :
  carried (server w) well ns <> [] ->
  carried (server (world_of (for_each (annotate_row df false) l w))) well ns =
  carried (server w) well ns.
Proof.
  revert w. induction l as [|row l IH]; intros w Hc; [reflexivity|].
  rewrite for_each_cons.
  change (annotate_row df false row w)
    with (annotate_record false (record_of df row) w).
  pose proof (no_force_carried_stable (record_of df row) well ns w Hc) as H1.
  destruct (annotate_record false (record_of df row) w) as [[] w1|e w1];
    cbn [world_of] in H1; [|exact H1].
  rewrite IH; [exact H1|]. now rewrite H1.
Qed.

(** X15.  Without [--force], the rows before a row have been processed,
    the row is typed and looked up, and its well carries no annotation under
    [NAMESPACE] at that point: however the run ends, the well carries in the
    store the run leaves exactly one annotation under [NAMESPACE], with the
    payload of this row, whatever the later rows for the same well say: the
    first row for a well wins. *)
Theorem main_no_force_first_row_wins (df : DataFrame)
        (before : list (list value)) (row : list value)
        (after : list (list value)) (pname : string) (r c : Z)
        (p : Plate) (well : Z) (w w1 : World) :
  (forall col, In col (keys DTYPES) -> In col (columns df)) ->
  rows df = before ++ row :: after ->
  for_each (annotate_row df false) before (log w [connect_event])
  = Returned tt w1 ->
  typed_row (record_of df row) pname r c ->
  named (server w1) pname = [p] ->
  well_at (server w1) (pl_id p) (r - 1) (c - 1) = Some well ->
  carried (server w1) well NAMESPACE = [] ->
  carried (server (world_of (main df false w))) well NAMESPACE =
  [mkMapAnn (fresh_id (server w1)) well NAMESPACE (payload (record_of df row))].
Proof.
  intros Hcols Hrows Hbefore Ht Hn Hw Hc.
  rewrite (main_run _ _ _ Hcols), Hrows, for_each_app, Hbefore, for_each_cons.
  change (annotate_row df false row w1)
    with (annotate_record false (record_of df row) w1).
  rewrite (annotate_record_resolved _ _ _ _ _ _ _ _ Ht Hn Hw).
  rewrite annotate_well_run. cbn [log server trace]. rewrite Hc.
  match goal with
  | |- context [for_each _ after ?w2] =>
      pose proof (no_force_loop_carried_stable df after well NAMESPACE w2) as Hst;
      destruct (for_each (annotate_row df false) after w2) as [[] w3|e w3]
  end; cbn [world_of log server] in *; rewrite Hst;
    try (rewrite carried_posted, Hc, on_well_self by reflexivity; reflexivity);
    rewrite carried_posted, Hc, on_well_self by reflexivity; discriminate.
Qed.

Lemma main_no_force_first_row_wins_witness :
  carried (server (world_of (main two_df false (world0 plateA_server))))
          40 NAMESPACE
  = [mkMapAnn 1 40 NAMESPACE payload_old].
Proof.
  apply (main_no_force_first_row_wins two_df [] plateA_row2 [plateA_row]
           "PlateA" 1 1 (mkPlate 7 "PlateA") 40 (world0 plateA_server)
           (log (world0 plateA_server) [connect_event])).
  - intros col H. exact H.
  - reflexivity.
  - reflexivity.
  - repeat split; reflexivity.
  - reflexivity.
  - reflexivity.
  - reflexivity.
Defined.

(** A row with an empty plate name cell is looked up under the name
    [nan]. *)
Example main_nan_row :
  main nan_df false (world0 nan_server) =
  Returned tt
    (mkWorld
       (with_annotations nan_server
          [mkMapAnn 1 40 NAMESPACE payload_XY;
           mkMapAnn 2 50 NAMESPACE
             [("individual", VStr "N"); ("concentration", VFloat 2);
              ("compound", VStr "As")]])
       [connect_event;
        EPlateQuery "PlateA"; EGetWellId 7 0 0;
        EGetMapAnnotationIds 40 NAMESPACE;
        EPostMapAnnotation 40 payload_XY NAMESPACE;
        EPrint "New MapAnnotation:1 posted to Well:40";
        EPlateQuery "nan"; EGetWellId 9 0 0;
        EGetMapAnnotationIds 50 NAMESPACE;
        EPostMapAnnotation 50
          [("individual", VStr "N"); ("concentration", VFloat 2);
           ("compound", VStr "As")] NAMESPACE;
        EPrint "New MapAnnotation:2 posted to Well:50";
        EClose]).
Proof. vm_compute. reflexivity. Qed.

Example main_nan_row_no_plate :
  main nan_df false (world0 plateA_server) =
  Raised (ValueError "No plate found with name nan")
    (mkWorld
       (with_annotations plateA_server [mkMapAnn 1 40 NAMESPACE payload_XY])
       [connect_event;
        EPlateQuery "PlateA"; EGetWellId 7 0 0;
        EGetMapAnnotationIds 40 NAMESPACE;
        EPostMapAnnotation 40 payload_XY NAMESPACE;
        EPrint "New MapAnnotation:1 posted to Well:40";
        EPlateQuery "nan"]).
Proof. vm_compute. reflexivity. Qed.
